(** * incydr.utils: schema walking, field resolution and the CSV codec

    A shallow embedding of [src/incydr/utils.py].  The module works on
    pydantic models by reflection; the parts of pydantic and of the [csv]
    module it relies on are modelled next to the functions that use them,
    at the level of their documented contract. *)

From Stdlib Require Import List String Ascii Bool Arith Lia ZArith.
From Stdlib Require Import DecimalString.
Import ListNotations.
Local Open Scope string_scope.
Local Open Scope list_scope.

Set Implicit Arguments.

(** ** Python strings *)

Module PyStr.

Definition dot : ascii := "."%char.
Definition star : ascii := "*"%char.

(** [c in s] for a one-character needle. *)
Fixpoint contains (c : ascii) (s : string) : bool :=
  match s with
  | EmptyString => false
  | String a s' => Ascii.eqb a c || contains c s'
  end.

(** [s.replace(c, "")] for a one-character needle. *)
Fixpoint remove (c : ascii) (s : string) : string :=
  match s with
  | EmptyString => EmptyString
  | String a s' => if Ascii.eqb a c then remove c s' else String a (remove c s')
  end.

(** [s.startswith(p)]. *)
Definition startswith (s p : string) : bool := String.prefix p s.

(** [s.split(c)]: never empty, ["".split(".")] is [[""]]. *)
Fixpoint split (c : ascii) (s : string) : list string :=
  match s with
  | EmptyString => [EmptyString]
  | String a s' =>
      if Ascii.eqb a c then EmptyString :: split c s'
      else match split c s' with
           | [] => [String a EmptyString]
           | w :: ws => String a w :: ws
           end
  end.

(** [f"{a}.{b}"]. *)
Definition dotted (a b : string) : string := a ++ String dot b.

(** [".".join(path)]. *)
Fixpoint join (path : list string) : string :=
  match path with
  | [] => EmptyString
  | [a] => a
  | a :: rest => dotted a (join rest)
  end.

(** [c.isspace()], over the ASCII range. *)
Definition isspace (c : ascii) : bool :=
  let n := nat_of_ascii c in
  ((9 <=? n)%nat && (n <=? 13)%nat) || ((28 <=? n)%nat && (n <=? 32)%nat).

Fixpoint lstrip (s : string) : string :=
  match s with
  | EmptyString => EmptyString
  | String a s' => if isspace a then lstrip s' else s
  end.

Fixpoint rstrip (s : string) : string :=
  match s with
  | EmptyString => EmptyString
  | String a s' =>
      match rstrip s' with
      | EmptyString => if isspace a then EmptyString else String a EmptyString
      | r => String a r
      end
  end.

(** [s.strip()]. *)
Definition strip (s : string) : string := rstrip (lstrip s).

(** [str(n)] for a non-negative integer. *)
Definition of_nat (n : nat) : string := NilEmpty.string_of_uint (Nat.to_uint n).

End PyStr.

(** ** Exceptions and generators *)

Inductive Exn : Type :=
| AttributeError (attr : string)
| KeyError (key : string)
| IndexError
| TypeError (msg : string)
| StopIteration
| ValueError (msg : string) (arg : list string)
| ValidationError (detail : string)
| CSVValidationError (msg : string) (row : nat)
| OtherError (msg : string).

Inductive result (A : Type) : Type :=
| Ok (a : A)
| Raise (e : Exn).
Arguments Ok {A} a.
Arguments Raise {A} e.

Definition bind {A B} (r : result A) (k : A -> result B) : result B :=
  match r with
  | Ok a => k a
  | Raise e => Raise e
  end.

Notation "x <- r ;; k" := (bind r (fun x => k))
  (at level 61, r at next level, right associativity).
Notation "' p <- r ;; k" := (bind r (fun x => let p := x in k))
  (at level 61, p pattern, r at next level, right associativity).

(** A generator run to the end: the values it yielded, in order, and the
    exception that ended it, if one did. *)
Record Gen (A : Type) : Type := mkGen { yielded : list A; raised : option Exn }.
Arguments mkGen {A} yielded raised.

Definition gen_of_list {A} (l : list A) : Gen A := mkGen l None.

(** [yield from xs] followed by the rest of the generator body. *)
Definition gen_app {A} (xs : list A) (g : Gen A) : Gen A :=
  mkGen (xs ++ yielded g) (raised g).

(** A [for] loop over an iterator that ends with [tail], whose body produces
    one item per turn, or raises. *)
Fixpoint gen_for {A B} (body : A -> result B) (xs : list A)
         (tail : option Exn) : Gen B :=
  match xs with
  | [] => mkGen [] tail
  | x :: xs' =>
      match body x with
      | Ok b => gen_app [b] (gen_for body xs' tail)
      | Raise e => mkGen [] (Some e)
      end
  end.

(** ** Python dicts with string keys: insertion-ordered, keys unique *)

Section Dict.
Context {K V : Type} (eqb : K -> K -> bool).

Fixpoint dict_get (d : list (K * V)) (k : K) : option V :=
  match d with
  | [] => None
  | (k', v) :: d' => if eqb k' k then Some v else dict_get d' k
  end.

(** [d[k] = v]: overwrites in place, or appends a new key. *)
Fixpoint dict_set (d : list (K * V)) (k : K) (v : V) : list (K * V) :=
  match d with
  | [] => [(k, v)]
  | (k', v') :: d' =>
      if eqb k' k then (k', v) :: d' else (k', v') :: dict_set d' k v
  end.

Definition dict_keys (d : list (K * V)) : list K := map fst d.

Definition dict_mem (d : list (K * V)) (k : K) : bool :=
  match dict_get d k with Some _ => true | None => false end.

(** [for k, v in pairs: d[k] = v]. *)
Definition dict_fold (pairs d : list (K * V)) : list (K * V) :=
  fold_left (fun d kv => dict_set d (fst kv) (snd kv)) pairs d.

(** [dict(pairs)]. *)
Definition dict_of (pairs : list (K * V)) : list (K * V) := dict_fold pairs [].
End Dict.

Definition sdict (V : Type) : Type := list (string * V).
Definition sget {V} (d : sdict V) (k : string) : option V := dict_get String.eqb d k.

(** [x in xs] for a list of strings. *)
Definition str_in (x : string) (xs : list string) : bool :=
  existsb (String.eqb x) xs.

(** ** pydantic: model classes, fields and instances *)

(** [pydantic.fields.SHAPE_*]. *)
Inductive Shape : Type :=
| SHAPE_SINGLETON | SHAPE_LIST | SHAPE_SET | SHAPE_MAPPING | SHAPE_TUPLE.

Definition Shape_eqb (a b : Shape) : bool :=
  match a, b with
  | SHAPE_SINGLETON, SHAPE_SINGLETON | SHAPE_LIST, SHAPE_LIST
  | SHAPE_SET, SHAPE_SET | SHAPE_MAPPING, SHAPE_MAPPING
  | SHAPE_TUPLE, SHAPE_TUPLE => true
  | _, _ => false
  end.

(** What [field_info.extra] can hold: [Field(..., table=render_fn)] stores a
    callable, [Field(..., example="x")] stores plain data. *)
Inductive Extra : Type :=
| ECallable (fn : string)
| EStr (s : string)
| EInt (z : Z)
| EBool (b : bool)
| ENone.

(** Python truthiness of an [extra] entry. *)
Definition extra_truthy (e : Extra) : bool :=
  match e with
  | ECallable _ => true
  | EStr s => negb (String.eqb s "")
  | EInt z => negb (Z.eqb z 0)
  | EBool b => b
  | ENone => false
  end.

(** [field.type_]: the innermost type of the annotation, either a subclass
    of [BaseModel] or any other class, named. *)
Inductive PyType (C : Type) : Type :=
| TOther (name : string)
| TModel (cls : C).
Arguments TOther {C} name.
Arguments TModel {C} cls.

Record ModelField_ (C : Type) : Type := mkField {
  type_ : PyType C;
  shape : Shape;
  allow_none : bool;
  extra : sdict Extra
}.
Arguments mkField {C} type_ shape allow_none extra.
Arguments type_ {C} m.
Arguments shape {C} m.
Arguments allow_none {C} m.
Arguments extra {C} m.

(** A [BaseModel] subclass: its [__name__], [Config.json_encoders] (type
    name to encoder) and [__fields__] in declaration order.  A class is a
    finite tree: a model that refers to itself has no flattening. *)
Unset Elimination Schemes.
Inductive ModelClass : Type :=
| mkClass (name : string) (json_encoders : sdict string)
          (fields : sdict (ModelField_ ModelClass)).
Set Elimination Schemes.

Definition ModelField : Type := ModelField_ ModelClass.

Definition cls_name (c : ModelClass) : string :=
  match c with mkClass n _ _ => n end.
Definition cls_json_encoders (c : ModelClass) : sdict string :=
  match c with mkClass _ e _ => e end.
Definition cls_fields (c : ModelClass) : sdict ModelField :=
  match c with mkClass _ _ fs => fs end.

(** ** utils.flatten_fields *)

(** [issubclass(field.type_, BaseModel) and field.shape == SHAPE_SINGLETON]. *)
Definition singular_model (f : ModelField) : option ModelClass :=
  match type_ f with
  | TModel c => if Shape_eqb (shape f) SHAPE_SINGLETON then Some c else None
  | TOther _ => None
  end.

Fixpoint flatten_fields (model : ModelClass) : list string :=
  match model with
  | mkClass _ _ fields =>
      (fix items (fs : sdict ModelField) : list string :=
         match fs with
         | [] => []
         | (name, field) :: fs' =>
             match type_ field with
             | TModel c =>
                 if Shape_eqb (shape field) SHAPE_SINGLETON
                 then map (PyStr.dotted name) (flatten_fields c) ++ items fs'
                 else name :: items fs'
             | TOther _ => name :: items fs'
             end
         end) fields
  end.

(** ** Python values *)

Unset Elimination Schemes.
Inductive Value : Type :=
| VNone
| VBool (b : bool)
| VInt (z : Z)
| VStr (s : string)
| VObj (ty : string) (payload : string)
| VList (items : list Value)
| VDict (items : sdict Value)
| VModel (cls : ModelClass) (dict_ : sdict Value).
Set Elimination Schemes.

(** [type(value)], by name; the keys of [json_encoders] are such names. *)
Definition type_name (v : Value) : string :=
  match v with
  | VNone => "NoneType"
  | VBool _ => "bool"
  | VInt _ => "int"
  | VStr _ => "str"
  | VObj ty _ => ty
  | VList _ => "list"
  | VDict _ => "dict"
  | VModel c _ => cls_name c
  end.

(** ** Attribute lookup *)

Section Resolver.
(** What [getattr(obj, name)] finds on the type of [obj] when the instance
    itself holds nothing under [name]: a method ([dict], [copy], [json] of
    a model; [count], [index] of a list), a class attribute, a property;
    [None] when the type has no such attribute either. *)
Variable type_attr : Value -> string -> option Value.

Definition getattr_type (obj : Value) (name : string) : result Value :=
  match type_attr obj name with
  | Some attr => Ok attr
  | None => Raise (AttributeError name)
  end.

(** [getattr(obj, name)].  The fields of a model instance are in its
    [__dict__]; pydantic refuses a field whose name shadows an attribute of
    [BaseModel], so the two never compete.  Any other name, and any name
    on a value that is not a model, is looked up on the type. *)
Definition getattr (obj : Value) (name : string) : result Value :=
  match obj with
  | VModel _ d =>
      match sget d name with
      | Some v => Ok v
      | None => getattr_type obj name
      end
  | _ => getattr_type obj name
  end.

(** [obj.__fields__]: the class attribute pydantic gives a model.  Of the
    values of the embedding only model instances have it. *)
Definition fields_of (obj : Value) : result (sdict ModelField) :=
  match obj with
  | VModel c _ => Ok (cls_fields c)
  | _ => Raise (AttributeError "__fields__")
  end.

(** [model_type.construct] called with [None] for every name of
    [model_type.__fields__]: no validation, every field set to [None]. *)
Definition construct_none (model_type : ModelClass) : Value :=
  VModel model_type (map (fun kf => (fst kf, VNone)) (cls_fields model_type)).

(** ** utils.get_field_value_and_info *)

(** One turn of the loop over [path[:-1]]. *)
Definition descend (model : Value) (p : string) : result Value :=
  next_model <- getattr model p ;;
  match next_model with
  | VNone =>
      fields <- fields_of model ;;
      match sget fields p with
      | None => Raise (KeyError p)
      | Some f =>
          match type_ f with
          | TModel model_type => Ok (construct_none model_type)
          | TOther _ => Raise (AttributeError "construct")
          end
      end
  | _ => Ok next_model
  end.

Fixpoint descend_all (model : Value) (ps : list string) : result Value :=
  match ps with
  | [] => Ok model
  | p :: ps' => m <- descend model p ;; descend_all m ps'
  end.

Definition get_field_value_and_info (model : Value) (path : list string)
  : result (Value * option ModelField) :=
  model' <- descend_all model (removelast path) ;;
  match path with
  | [] => Raise IndexError
  | _ =>
      let name := last path "" in
      value <- getattr model' name ;;
      fields <- fields_of model' ;;
      Ok (value, sget fields name)
  end.

End Resolver.

(** ** utils.get_fields *)

(** The names one [include] entry yields, and whether it set [found]. *)
Definition include_yield (fields : list string) (i : string) : list string :=
  if PyStr.contains PyStr.star i then
    let pattern := PyStr.remove PyStr.star i in
    filter (fun f => PyStr.startswith f pattern) fields
  else if str_in i fields then [i] else [].

Definition include_found (fields : list string) (i : string) : bool :=
  if PyStr.contains PyStr.star i then
    let pattern := PyStr.remove PyStr.star i in
    existsb (fun f => PyStr.startswith f pattern) fields
  else str_in i fields.

Definition not_a_valid_field_path (i : string) (model : ModelClass) : string :=
  "'" ++ i ++ "' is not a valid field path for model: " ++ cls_name model.

Fixpoint get_fields_include (model : ModelClass) (fields : list string)
         (include : list string) : Gen string :=
  match include with
  | [] => mkGen [] None
  | i :: rest =>
      if include_found fields i
      then gen_app (include_yield fields i) (get_fields_include model fields rest)
      else mkGen (include_yield fields i)
                 (Some (ValueError (not_a_valid_field_path i model) fields))
  end.

(** [fields] is the flattened list, or the [__fields__] dict, which iterates,
    tests membership and converts to a list by its keys. *)
Definition get_fields (model : ModelClass) (include : option (list string))
           (flat : bool) : Gen string :=
  let fields := if flat then flatten_fields model
                else dict_keys (cls_fields model) in
  match include with
  | None | Some [] => gen_of_list fields
  | Some include => get_fields_include model fields include
  end.

(** ** utils.iter_model_formatted *)

Section Formatted.
Variable type_attr : Value -> string -> option Value.
(** Calling the Python callable of that name on a value. *)
Variable call : string -> Value -> result Value.

(** [field.field_info.extra.get(render)]. *)
Definition extra_get (f : ModelField) (render : option string) : Extra :=
  match render with
  | None => ENone
  | Some r => match sget (extra f) r with Some e => e | None => ENone end
  end.

(** Truthiness of the [render] argument. *)
Definition render_truthy (render : option string) : bool :=
  match render with
  | None => false
  | Some r => negb (String.eqb r "")
  end.

(** [field_renderer(value)]. *)
Definition call_extra (e : Extra) (v : Value) : result Value :=
  match e with
  | ECallable fn => call fn v
  | _ => Raise (TypeError "object is not callable")
  end.

(** The body of the loop over [fields], for one name. *)
Definition format_field (cls : ModelClass) (dict_ : sdict Value)
           (render : option string) (name : string) : result (string * Value) :=
  let model := VModel cls dict_ in
  let path := PyStr.split PyStr.dot name in
  vf <- get_field_value_and_info type_attr model path ;;
  let value := fst vf in
  let field_renderer :=
    match snd vf with
    | None => ENone
    | Some f => extra_get f render
    end in
  if render_truthy render && extra_truthy field_renderer then
    value' <- call_extra field_renderer value ;;
    Ok (name, value')
  else
    match sget (cls_json_encoders cls) (type_name value) with
    | Some json_encoder =>
        value' <- call json_encoder value ;;
        Ok (name, value')
    | None => Ok (name, value)
    end.

Definition iter_model_formatted (cls : ModelClass) (dict_ : sdict Value)
           (include : option (list string)) (flat : bool)
           (render : option string) : Gen (string * Value) :=
  let fields := get_fields cls include flat in
  gen_for (format_field cls dict_ render) (yielded fields) (raised fields).
End Formatted.

(** ** csv.DictReader *)

(** What [csv.reader] makes of the text: the cells of each row, with the
    reader's [line_num] once the row is read.  A blank line is [[]]. *)
Definition CsvFile : Type := list (nat * list string).

(** The dict a [DictReader] produces: [restkey] is [None], so a key can be
    [None]; values are cells, [restval] ([None]) or the list of surplus
    cells. *)
Definition Row : Type := list (option string * Value).

Definition key_eqb (a b : option string) : bool :=
  match a, b with
  | Some x, Some y => String.eqb x y
  | None, None => true
  | _, _ => false
  end.

Definition reader_row (fieldnames : list string) (row : list string) : Row :=
  let d := dict_of key_eqb (combine (map Some fieldnames) (map VStr row)) in
  let lf := List.length fieldnames in
  let lr := List.length row in
  if Nat.ltb lf lr then dict_set key_eqb d None (VList (map VStr (skipn lf row)))
  else if Nat.ltb lr lf then
    dict_fold key_eqb (map (fun key => (Some key, VNone)) (skipn lr fieldnames)) d
  else d.

(** [DictReader.fieldnames]: given, or the first row of the file. *)
Definition reader_open (file : CsvFile) (fieldnames : option (list string))
  : option (list string) * CsvFile :=
  match fieldnames with
  | Some names => (Some names, file)
  | None =>
      match file with
      | [] => (None, [])
      | (_, header) :: rest => (Some header, rest)
      end
  end.

(** [DictReader.__next__], repeated.  Blank rows are skipped; the dict is
    then built from [self.fieldnames], a property that sets [line_num] to
    the underlying reader's line number each time it is read.  After a call
    [line_num] is therefore the line number of the row returned, also when
    blank lines were skipped before it. *)
Fixpoint reader_next_all (fieldnames : list string) (file : CsvFile)
  : list (nat * Row) :=
  match file with
  | [] => []
  | (line_num, row) :: rest =>
      match row with
      | [] => reader_next_all fieldnames rest
      | _ => (line_num, reader_row fieldnames row)
               :: reader_next_all fieldnames rest
      end
  end.

Definition DictReader (file : CsvFile) (fieldnames : option (list string))
  : list (nat * Row) :=
  match reader_open file fieldnames with
  | (Some names, rest) => reader_next_all names rest
  | (None, _) => []
  end.

(** ** The readers of utils.py *)

(** [val == ""]. *)
Definition is_empty_str (v : Value) : bool :=
  match v with
  | VStr s => String.eqb s ""
  | _ => false
  end.

(** [for key, val in row.items(): if val == "": row[key] = None]. *)
Definition blank_to_none (row : Row) : Row :=
  map (fun kv => if is_empty_str (snd kv) then (fst kv, VNone) else kv) row.

(** [row] unpacked into keyword arguments: every key has to be a string. *)
Fixpoint kwargs (row : Row) : option (sdict Value) :=
  match row with
  | [] => Some []
  | (Some k, v) :: row' =>
      match kwargs row' with
      | Some kw => Some ((k, v) :: kw)
      | None => None
      end
  | (None, _) :: _ => None
  end.

Section Readers.
(** pydantic's validation of the keyword arguments of [model(...)]: an
    instance, or an exception ([ValidationError] for bad data). *)
Variable validate : ModelClass -> sdict Value -> result Value.

(** The call of [model] with [row] unpacked into keyword arguments. *)
Definition new_model (model : ModelClass) (row : Row) : result Value :=
  match kwargs row with
  | Some kw => validate model kw
  | None => Raise (TypeError "keywords must be strings")
  end.

Definition bad_data (line_num : nat) (path : string) (err : string) : string :=
  "Bad data in row " ++ PyStr.of_nat line_num ++ " of " ++ path
    ++ String (ascii_of_nat 10) err.

(** The loop of [read_models_from_csv], with the variable [error]. *)
Fixpoint read_models_loop (model : ModelClass) (path : string)
         (rows : list (nat * Row)) (error : option Exn) : Gen Value :=
  match rows with
  | [] => mkGen [] error
  | (line_num, row) :: rest =>
      let row := blank_to_none row in
      match new_model model row with
      | Ok m => gen_app [m] (read_models_loop model path rest error)
      | Raise (ValidationError err) =>
          read_models_loop model path rest
            (Some (CSVValidationError (bad_data line_num path err) line_num))
      | Raise e => mkGen [] (Some e)
      end
  end.

(** [path] is the text of [{path}] in the message. *)
Definition read_models_from_csv (model : ModelClass) (path : string)
           (file : CsvFile) : Gen Value :=
  read_models_loop model path (DictReader file None) None.
End Readers.

Definition read_dict_from_csv (file : CsvFile) (field_names : option (list string))
  : Gen Row :=
  gen_of_list (map (fun r => blank_to_none (snd r)) (DictReader file field_names)).

(** ** pydantic: [BaseModel.dict] *)

(** Models become dicts, recursively. *)
Fixpoint to_builtin (v : Value) : Value :=
  match v with
  | VModel _ d => VDict (map (fun kv => (fst kv, to_builtin (snd kv))) d)
  | VList l => VList (map to_builtin l)
  | VDict d => VDict (map (fun kv => (fst kv, to_builtin (snd kv))) d)
  | _ => v
  end.

(** The [include] argument as [write_models_to_csv] passes it: [None], the
    set made of a non-empty [columns], or an empty list left as it was. *)
Inductive IncludeArg : Type :=
| IncludeNone
| IncludeSet (names : list string)
| IncludeList (names : list string).

(** [model.dict(by_alias=False, include=...)]: the instance's fields in their
    order, kept when [include] allows them.  pydantic accepts a set or a
    mapping there and rejects a list. *)
Definition model_dict (model : Value) (include : IncludeArg) : result (sdict Value) :=
  match model with
  | VModel _ d =>
      match include with
      | IncludeNone => Ok (map (fun kv => (fst kv, to_builtin (snd kv))) d)
      | IncludeSet names =>
          Ok (map (fun kv => (fst kv, to_builtin (snd kv)))
                  (filter (fun kv => str_in (fst kv) names) d))
      | IncludeList _ => Raise (TypeError "Unexpected type of exclude value")
      end
  | _ => Raise (AttributeError "dict")
  end.

(** ** csv.DictWriter *)

Section Writers.
(** [str(v)] for what is neither [None] nor a string. *)
Variable py_str : Value -> string.

(** The text the csv writer puts in a cell: [None] is written as the
    empty string. *)
Definition cell_text (v : Value) : string :=
  match v with
  | VNone => ""
  | VStr s => s
  | _ => py_str v
  end.

(** [DictWriter.writerow] with [restval=""] and [extrasaction="raise"];
    the result is the row of cells written. *)
Definition writerow (fieldnames : list string) (rowdict : sdict Value)
  : result (list string) :=
  let wrong_fields :=
    filter (fun k => negb (str_in k fieldnames)) (dict_keys rowdict) in
  match wrong_fields with
  | [] =>
      Ok (map (fun key =>
                 cell_text (match sget rowdict key with
                            | Some v => v
                            | None => VStr ""
                            end)) fieldnames)
  | _ => Raise (ValueError "dict contains fields not in fieldnames" wrong_fields)
  end.

(** [DictWriter.writeheader]. *)
Definition writeheader (fieldnames : list string) : result (list string) :=
  writerow fieldnames
           (dict_of String.eqb (combine fieldnames (map VStr fieldnames))).

(** ** utils.write_models_to_csv

    The result is what was written to the file, row by row, and the
    exception that stopped the writing, if any. *)
Definition write_models_to_csv (models : list Value)
           (columns : option (list string)) : Gen (list string) :=
  let columns :=
    match columns with
    | None => IncludeNone
    | Some [] => IncludeList []
    | Some names => IncludeSet names
    end in
  match models with
  | [] => mkGen [] (Some StopIteration)
  | first :: _ =>
      match fields_of first with
      | Raise e => mkGen [] (Some e)
      | Ok fields =>
          let fieldnames := dict_keys fields in
          match writeheader fieldnames with
          | Raise e => mkGen [] (Some e)
          | Ok header =>
              gen_app [header]
                (gen_for (fun model =>
                            rowdict <- model_dict model columns ;;
                            writerow fieldnames rowdict)
                         models None)
          end
      end
  end.

(** ** utils.write_dict_to_csv *)

(** What the names [first] and [model] are bound to in that function: a
    dict, or the generator object that a call of the generator function
    [flatten_fields] returns.  Calling a generator function runs none of
    its body. *)
Inductive Obj : Type :=
| ODict (d : sdict Value)
| OGenerator.

Definition call_flatten_fields (arg : Obj) : Obj := OGenerator.

(** [obj.keys()]. *)
Definition obj_keys (obj : Obj) : result (list string) :=
  match obj with
  | ODict d => Ok (dict_keys d)
  | OGenerator => Raise (AttributeError "keys")
  end.

(** [obj[c]]. *)
Definition obj_getitem (obj : Obj) (c : string) : result Value :=
  match obj with
  | ODict d =>
      match sget d c with
      | Some v => Ok v
      | None => Raise (KeyError c)
      end
  | OGenerator => Raise (TypeError "'generator' object is not subscriptable")
  end.

(** The dict comprehension over [columns] that restricts a mapping. *)
Fixpoint restrict_items (obj : Obj) (columns : list string)
  : result (list (string * Value)) :=
  match columns with
  | [] => Ok []
  | c :: cs =>
      v <- obj_getitem obj c ;;
      items <- restrict_items obj cs ;;
      Ok ((c, v) :: items)
  end.

Definition restrict (obj : Obj) (columns : list string) : result Obj :=
  items <- restrict_items obj columns ;;
  Ok (ODict (dict_of String.eqb items)).

(** [writer.writerow(obj)]: the writer starts with [obj.keys()]. *)
Definition writerow_obj (fieldnames : list string) (obj : Obj)
  : result (list string) :=
  match obj with
  | ODict d => writerow fieldnames d
  | OGenerator => Raise (AttributeError "keys")
  end.

(** [columns] is a comma-separated string here; the list made of it is
    never empty. *)
Definition split_columns (columns : option string) : option (list string) :=
  match columns with
  | None => None
  | Some s =>
      if String.eqb s "" then None
      else Some (map PyStr.strip (PyStr.split ","%char s))
  end.

Definition write_dict_to_csv (models : list (sdict Value))
           (columns : option string) : Gen (list string) :=
  let columns := split_columns columns in
  match models with
  | [] => mkGen [] (Some StopIteration)
  | first :: models' =>
      let restricted (obj : Obj) : result Obj :=
        match columns with
        | Some cs => restrict obj cs
        | None => Ok obj
        end in
      match restricted (ODict first) with
      | Raise e => mkGen [] (Some e)
      | Ok first =>
          let first := call_flatten_fields first in
          match obj_keys first with
          | Raise e => mkGen [] (Some e)
          | Ok fieldnames =>
              match writeheader fieldnames with
              | Raise e => mkGen [] (Some e)
              | Ok header =>
                  gen_app [header]
                    (gen_for (fun model =>
                                model <- restricted model ;;
                                writerow_obj fieldnames (call_flatten_fields model))
                             (first :: map ODict models') None)
              end
          end
      end
  end.
End Writers.

(** * Specification-side notions *)

(** The leaves of a Schema, as paths of field names: depth first, fields
    in declaration order, descending only into a singular nested model. *)
Fixpoint spec_leaf_paths (schema : ModelClass) : list (list string) :=
  match schema with
  | mkClass _ _ fields =>
      flat_map (fun kf =>
                  match type_ (snd kf), shape (snd kf) with
                  | TModel child, SHAPE_SINGLETON =>
                      map (cons (fst kf)) (spec_leaf_paths child)
                  | _, _ => [[fst kf]]
                  end) fields
  end.

(** [leaf_at schema path]: [path] leads through singular nested models to
    a field that is not one. *)
Inductive leaf_at : ModelClass -> list string -> Prop :=
| leaf_here schema n f :
    In (n, f) (cls_fields schema) ->
    singular_model f = None ->
    leaf_at schema [n]
| leaf_below schema n f child path :
    In (n, f) (cls_fields schema) ->
    singular_model f = Some child ->
    leaf_at child path ->
    leaf_at schema (n :: path).

(** The per-field contribution, as the loop body computes it. *)
Definition field_paths (name : string) (field : ModelField) : list string :=
  match singular_model field with
  | Some c => map (PyStr.dotted name) (flatten_fields c)
  | None => [name]
  end.

(** * Example schemas *)

Module Ex.
Definition scalar (ty : string) : ModelField :=
  mkField (TOther ty) SHAPE_SINGLETON false [].
Definition optional (ty : string) : ModelField :=
  mkField (TOther ty) SHAPE_SINGLETON true [].

(** The classes of the docstrings of utils.py. *)
Definition Child : ModelClass :=
  mkClass "Child" [] [("field_1", scalar "str"); ("field_2", scalar "int")].
Definition Parent : ModelClass :=
  mkClass "Parent" []
          [("field", scalar "str");
           ("child", mkField (TModel Child) SHAPE_SINGLETON false [])].

(** A class with an optional child and a list of children. *)
Definition Family : ModelClass :=
  mkClass "Family" []
          [("field", scalar "str");
           ("child", mkField (TModel Child) SHAPE_SINGLETON true []);
           ("kids", mkField (TModel Child) SHAPE_LIST true []);
           ("last", optional "str")].

(** A Family whose optional child is absent. *)
Definition lonely : Value :=
  VModel Family [("field", VStr "a"); ("child", VNone);
                 ("kids", VNone); ("last", VNone)].

(** The attributes the types of the examples have besides fields: some
    methods of [BaseModel] on a model, some methods of [list] on a list. *)
Definition type_attr (obj : Value) (name : string) : option Value :=
  match obj with
  | VModel _ _ =>
      if str_in name ["dict"; "json"; "copy"] then Some (VObj "method" name)
      else None
  | VList _ =>
      if str_in name ["count"; "index"]
      then Some (VObj "builtin_function_or_method" name)
      else None
  | _ => None
  end.

(** A class with a default encoder for [datetime], and a field of that
    type that also declares a [table] hint, next to its [example]. *)
Definition Alert : ModelClass :=
  mkClass "Alert" [("datetime", "isoformat")]
          [("id", optional "str");
           ("created_at",
            mkField (TOther "datetime") SHAPE_SINGLETON true
                    [("example", EStr "2020-02-19T01:57:45Z");
                     ("table", ECallable "humanize")]);
           ("closed_at", optional "datetime")].

Definition alert : sdict Value :=
  [("id", VStr "a1");
   ("created_at", VObj "datetime" "2020-02-19 01:57");
   ("closed_at", VObj "datetime" "2020-02-20 08:00")].

Definition call (fn : string) (v : Value) : result Value :=
  match v with
  | VObj _ text =>
      if String.eqb fn "humanize" then Ok (VStr ("on " ++ text))
      else if String.eqb fn "isoformat" then Ok (VStr (text ++ ":00Z"))
      else Raise (OtherError fn)
  | _ => Raise (OtherError fn)
  end.

(** A class of strings, one required, and what pydantic makes of the
    keyword arguments for it. *)
Definition Tag : ModelClass :=
  mkClass "Tag" [] [("name", scalar "str"); ("note", optional "str")].

Definition validate (cls : ModelClass) (kw : sdict Value) : result Value :=
  match sget kw "name" with
  | Some (VStr name) =>
      match sget kw "note" with
      | Some (VStr note) => Ok (VModel cls [("name", VStr name); ("note", VStr note)])
      | Some VNone | None => Ok (VModel cls [("name", VStr name); ("note", VNone)])
      | Some _ => Raise (ValidationError "note: str type expected")
      end
  | Some VNone => Raise (ValidationError "name: none is not an allowed value")
  | Some _ => Raise (ValidationError "name: str type expected")
  | None => Raise (ValidationError "name: field required")
  end.

Definition py_str (v : Value) : string :=
  match v with
  | VBool true => "True"
  | VBool false => "False"
  | VObj _ text => text
  | VInt z => NilZero.string_of_int (Z.to_int z)
  | _ => "?"
  end.

(** The Records of the column-subset scenario: fields id, name, size. *)
Definition Item : ModelClass :=
  mkClass "Item" [] [("id", scalar "int"); ("name", scalar "str");
                     ("size", optional "int")].
Definition item1 : Value :=
  VModel Item [("id", VInt 1); ("name", VStr "a"); ("size", VInt 10)].
Definition item2 : Value :=
  VModel Item [("id", VInt 2); ("name", VStr "b"); ("size", VNone)].

(** Three data rows under a header; the second and the third lack the
    required name. *)
Definition two_bad_rows : CsvFile :=
  [(1, ["name"; "note"]); (2, ["a"; "first"]); (3, [""; "second"]);
   (4, [""; "third"])].

(** The file of the ingest scenario: the second data row is bad. *)
Definition one_bad_row : CsvFile :=
  [(1, ["name"; "note"]); (2, ["a"; "first"]); (3, [""; "second"]);
   (4, ["c"; ""])].

Definition header_only : CsvFile := [(1, ["name"; "note"])].

(** A blank line before a row that lacks the required name. *)
Definition blank_line_then_bad_row : CsvFile :=
  [(1, ["name"; "note"]); (2, []); (3, [""; "second"])].

(** A row with two cells more than the header, one of them empty. *)
Definition long_row : CsvFile :=
  [(1, ["name"; "note"]); (2, ["a"; ""; ""; "more"])].

(** [Group] of _file_events/models.py: two optional scalars, the first
    with the alias [docCount].  pydantic populates an aliased field from
    the keyword of its alias and ignores the keyword of its name, as it
    ignores any undeclared keyword. *)
Definition Group : ModelClass :=
  mkClass "Group" [] [("doc_count", optional "int"); ("value", optional "str")].

Definition validate_aliased (cls : ModelClass) (kw : sdict Value) : result Value :=
  Ok (VModel cls
        [("doc_count", match sget kw "docCount" with Some v => v | None => VNone end);
         ("value", match sget kw "value" with Some v => v | None => VNone end)]).

Definition group_rows : CsvFile :=
  [(1, ["doc_count"; "value"]); (2, ["3"; "readme.md"])].

Definition good_rows : CsvFile :=
  [(1, ["name"; "note"]); (2, ["a"; "first"]); (3, ["b"; ""])].

(** The Schema of the wildcard scenario: event.id, file.name, file.size. *)
Definition Event : ModelClass := mkClass "Event" [] [("id", optional "str")].
Definition File : ModelClass :=
  mkClass "File" [] [("name", optional "str"); ("size", optional "int")].
Definition FileEvent : ModelClass :=
  mkClass "FileEvent" []
          [("event", mkField (TModel Event) SHAPE_SINGLETON true []);
           ("file", mkField (TModel File) SHAPE_SINGLETON true [])].
End Ex.

(** An Include Filter entry against a field path: a wildcard entry matches
    the paths that start with the entry without its wildcard marker, any
    other entry matches the path equal to it. *)
Definition entry_matches (entry f : string) : bool :=
  if PyStr.contains PyStr.star entry
  then String.prefix (PyStr.remove PyStr.star entry) f
  else String.eqb entry f.

(** What one entry contributes: a wildcard entry its matches in Schema
    order, an exact entry itself, once. *)
Definition spec_entry_yield (fields : list string) (entry : string) : list string :=
  if PyStr.contains PyStr.star entry
  then filter (entry_matches entry) fields
  else [entry].

(** The field list [get_fields] filters. *)
Definition all_fields (model : ModelClass) (flat : bool) : list string :=
  if flat then flatten_fields model else dict_keys (cls_fields model).

(** ** Schemas, Records and Field Paths *)

Fixpoint distinct (l : list string) : bool :=
  match l with
  | [] => true
  | x :: rest => negb (str_in x rest) && distinct rest
  end.

(** What Python guarantees of a class tree: [__fields__] is a dict, so the
    names of a class are distinct, and a field name is an identifier, so it
    holds no dot. *)
Fixpoint wf_class (c : ModelClass) : bool :=
  match c with
  | mkClass _ _ fields =>
      distinct (dict_keys fields)
      && forallb (fun kf =>
                    negb (PyStr.contains PyStr.dot (fst kf))
                    && match type_ (snd kf) with
                       | TModel child => wf_class child
                       | TOther _ => true
                       end) fields
  end.

(** A Record conforming to a Schema: an instance of the class that holds a
    value for every field; [None] only where the field allows it, an
    instance of the child class under a singular nested field. *)
Inductive conforms : ModelClass -> Value -> Prop :=
| conforms_model c d :
    (forall n f, In (n, f) (cls_fields c) ->
                 exists x, sget d n = Some x /\ field_conforms f x) ->
    conforms c (VModel c d)
with field_conforms : ModelField -> Value -> Prop :=
| conforms_absent f :
    allow_none f = true -> field_conforms f VNone
| conforms_nested f child x :
    singular_model f = Some child -> conforms child x -> field_conforms f x
| conforms_plain f x :
    singular_model f = None -> x <> VNone -> field_conforms f x.

(** The Field Paths of a Schema: a field of the class, or a path below a
    singular nested field. *)
Inductive field_path : ModelClass -> list string -> Prop :=
| field_path_here schema n f :
    In (n, f) (cls_fields schema) ->
    field_path schema [n]
| field_path_below schema n f child path :
    In (n, f) (cls_fields schema) ->
    singular_model f = Some child ->
    field_path child path ->
    field_path schema (n :: path).

(** The metadata of the field a path names, read off the Schema. *)
Fixpoint spec_field (schema : ModelClass) (path : list string) : option ModelField :=
  match path with
  | [] => None
  | [n] => sget (cls_fields schema) n
  | n :: rest =>
      match sget (cls_fields schema) n with
      | Some f =>
          match type_ f with
          | TModel child => spec_field child rest
          | TOther _ => None
          end
      | None => None
      end
  end.

(** The value a Record holds at a path, following the attributes one by
    one; there is none below an absent node. *)
Fixpoint plain_value (record : Value) (path : list string) : option Value :=
  match path with
  | [] => Some record
  | n :: rest =>
      match record with
      | VModel _ d =>
          match sget d n with
          | Some x => plain_value x rest
          | None => None
          end
      | _ => None
      end
  end.

(** What the resolver relies on, of the Record or of a placeholder: an
    instance of the class with an attribute for every field, and under a
    singular nested field [None] or again such an instance. *)
Unset Elimination Schemes.
Inductive shaped : ModelClass -> Value -> Prop :=
| shaped_model c d :
    (forall n f, In (n, f) (cls_fields c) ->
                 exists x, sget d n = Some x
                           /\ (x = VNone
                               \/ forall child, singular_model f = Some child ->
                                                shaped child x)) ->
    shaped c (VModel c d).
Set Elimination Schemes.

(** [resolves schema record p v f]: the resolver returns, at path [p], the
    value [v] and the metadata [f]; [f] is the Schema's metadata for [p];
    [v] is the value the Record holds at [p] when it holds one, and [None]
    when a node on the way to [p] is absent. *)
Definition resolves (type_attr : Value -> string -> option Value)
           (schema : ModelClass) (record : Value) (p : list string)
           (v : Value) (f : ModelField) : Prop :=
  get_field_value_and_info type_attr record p = Ok (v, Some f)
  /\ spec_field schema p = Some f
  /\ (forall v', plain_value record p = Some v' -> v = v')
  /\ (forall pre post, p = pre ++ post -> post <> [] ->
                       plain_value record pre = Some VNone -> v = VNone).

(** The transformation a field's metadata declares under the requested
    Render Hint name, if any. *)
Definition declared_hint (field : option ModelField) (render : option string)
  : option string :=
  match field, render with
  | Some f, Some r =>
      match sget (extra f) r with
      | Some (ECallable fn) => Some fn
      | _ => None
      end
  | _, _ => None
  end.

(** ** CSV ingest, in the words of the specification *)

Section Ingest_spec.
Variable validate : ModelClass -> sdict Value -> result Value.

(** What constructing a Record from a row of the reader gives. *)
Definition row_outcome (model : ModelClass) (row : Row) : result Value :=
  new_model validate model (blank_to_none row).

(** The Records of the rows that are valid, in order. *)
Definition valid_records (model : ModelClass) (rows : list (nat * Row)) : list Value :=
  flat_map (fun r => match row_outcome model (snd r) with
                     | Ok m => [m]
                     | Raise _ => []
                     end) rows.

(** The validation failures, in order: line number and detail. *)
Definition failures (model : ModelClass) (rows : list (nat * Row))
  : list (nat * string) :=
  flat_map (fun r => match row_outcome model (snd r) with
                     | Raise (ValidationError detail) => [(fst r, detail)]
                     | _ => []
                     end) rows.

(** No row makes the constructor raise anything but a validation error. *)
Definition only_validation_errors (model : ModelClass) (rows : list (nat * Row)) : Prop :=
  forall r, In r rows ->
    match row_outcome model (snd r) with
    | Ok _ | Raise (ValidationError _) => True
    | Raise _ => False
    end.

Definition aggregate_error (path : string) (failure : nat * string) : Exn :=
  CSVValidationError (bad_data (fst failure) path (snd failure)) (fst failure).

(** The claim that the first failure is the one reported. *)
Definition first_failure_reported (model : ModelClass) (path : string)
           (file : CsvFile) : Prop :=
  forall failure,
    hd_error (failures model (DictReader file None)) = Some failure ->
    raised (read_models_from_csv validate model path file)
    = Some (aggregate_error path failure).
End Ingest_spec.

(** ** The CSV round trip, in the words of the specification *)

(** A cell made absent when it is the empty string. *)
Definition blank_value (v : Value) : Value :=
  if is_empty_str v then VNone else v.

Definition blanked (cell : option Value) : option Value :=
  match cell with
  | Some v => Some (blank_value v)
  | None => None
  end.

Definition is_blank (cell : string) : bool := String.eqb cell "".

Definition is_absent (cell : option Value) : bool :=
  match cell with
  | None | Some VNone => true
  | Some _ => false
  end.

(** The structure of a table: its header, and which cells of which data
    row are empty. *)
Definition csv_structure (table : list (list string))
  : option (list string) * list (list bool) :=
  match table with
  | [] => (None, [])
  | header :: rows => (Some header, map (map is_blank) rows)
  end.

Section Roundtrip_spec.
Variable validate : ModelClass -> sdict Value -> result Value.
Variable py_str : Value -> string.

(** Writing what was read. *)
Definition write_read (model : ModelClass) (path : string) (file : CsvFile)
  : Gen (list string) :=
  write_models_to_csv py_str
    (yielded (read_models_from_csv validate model path file)) None.

(** The round trip claimed for a file. *)
Definition roundtrip_keeps_structure (model : ModelClass) (path : string)
           (file : CsvFile) : Prop :=
  csv_structure (yielded (write_read model path file))
  = csv_structure (map snd file).

(** pydantic on a class of scalars, as far as the round trip needs it: a
    Record built from keyword arguments without empty strings is an
    instance of the class with its fields in order, and a field of it is
    written as the empty string exactly when its argument was absent. *)
Definition scalar_faithful (model : ModelClass) : Prop :=
  forall kw m,
    (forall k, sget kw k <> Some (VStr "")) ->
    validate model kw = Ok m ->
    exists d, m = VModel model d
              /\ dict_keys d = dict_keys (cls_fields model)
              /\ forall k v, sget d k = Some v ->
                   is_blank (cell_text py_str (to_builtin v))
                   = is_absent (sget kw k).
End Roundtrip_spec.

(** ** Instances as pydantic builds them *)

(** A model instance holds attributes for fields of its class only, and so
    do the instances among its values.  ([Config.extra] is left at its
    default, so undeclared keywords are ignored, and [construct] is called
    with field names.) *)
Unset Elimination Schemes.
Inductive proper : Value -> Prop :=
| proper_model c d :
    (forall k v, In (k, v) d ->
                 (exists f, sget (cls_fields c) k = Some f) /\ proper v) ->
    proper (VModel c d)
| proper_plain v :
    (forall c d, v <> VModel c d) -> proper v.
Set Elimination Schemes.

(** What the type of a value provides is again a value as Python builds
    it. *)
Definition proper_attrs (type_attr : Value -> string -> option Value) : Prop :=
  forall obj name attr, type_attr obj name = Some attr -> proper attr.

(** The class a path leads to through singular nested fields. *)
Fixpoint spec_class (schema : ModelClass) (path : list string) : option ModelClass :=
  match path with
  | [] => Some schema
  | n :: rest =>
      match sget (cls_fields schema) n with
      | Some f =>
          match singular_model f with
          | Some child => spec_class child rest
          | None => None
          end
      | None => None
      end
  end.

(** ** Render hints that can be called *)

(** What [iter_model_formatted] expects under a hint name: a callable, or
    nothing that counts as true. *)
Definition hint_ok (e : Extra) : bool :=
  match e with
  | ECallable _ => true
  | _ => negb (extra_truthy e)
  end.

Fixpoint hints_ok (render : option string) (c : ModelClass) : bool :=
  match c with
  | mkClass _ _ fields =>
      forallb (fun kf =>
                 hint_ok (extra_get (snd kf) render)
                 && match type_ (snd kf) with
                    | TModel child => hints_ok render child
                    | TOther _ => true
                    end) fields
  end.

(** What [csv.reader] makes of a text without blank lines and without
    cells that run over several lines: the rows, numbered from 1. *)
Definition numbered (rows : list (list string)) : CsvFile :=
  combine (seq 1 (List.length rows)) rows.

(** ** utils.list_as_panel *)

Section Panels.
(** The renderables, and their truth value as Python takes it in [if sep]. *)
Context {R : Type}.
Variable truthy : R -> bool.

(** The [Panel] around the [Group] of the items, with its [title] and
    [expand], by what it holds. *)
Record Panel : Type := mkPanel {
  panel_items : list R;
  panel_title : option string;
  panel_expand : bool
}.

(** The chain of the pairs [zip(items, repeat(sep))], as a list, without
    its last element ([[:-1]]). *)
Definition with_separators (items : list R) (sep : R) : list R :=
  removelast (flat_map (fun item => [item; sep]) items).

Definition list_as_panel (items : list R) (sep : option R)
           (title : option string) (expand : bool) : Panel :=
  let items :=
    match sep with
    | Some s => if truthy s then with_separators items s else items
    | None => items
    end in
  mkPanel items title expand.

(** The items with the separator between each two of them, and nowhere
    else. *)
Fixpoint spec_between (sep : R) (items : list R) : list R :=
  match items with
  | [] => []
  | [x] => [x]
  | x :: rest => x :: sep :: spec_between sep rest
  end.
End Panels.

(** ** enums.Enum *)

(** A subclass of [Enum]: its [__module__], [__name__] and members, name
    and value, in the order of the class body. *)
Record EnumClass : Type := mkEnum {
  enum_module : string;
  enum_name : string;
  enum_members : list (string * string)
}.

(** [SrtDir], and [GroupClause] of the file-event models. *)
Definition SrtDir : EnumClass :=
  mkEnum "incydr.enums" "SrtDir" [("ASC", "asc"); ("DESC", "desc")].
Definition GroupClause : EnumClass :=
  mkEnum "incydr._file_events.models" "GroupClause" [("and_", "AND"); ("or_", "OR")].

(** [cls._value2member_map_.get(value)]: the first member defined with
    that value; a later one is an alias of it. *)
Fixpoint value2member (members : list (string * string)) (value : string)
  : option string :=
  match members with
  | [] => None
  | (name, v) :: rest =>
      if String.eqb v value then Some name else value2member rest value
  end.

(** [[member.value for member in cls]]: iteration leaves the aliases out. *)
Fixpoint member_values (members : list (string * string)) (seen : list string)
  : list string :=
  match members with
  | [] => []
  | (_, v) :: rest =>
      if str_in v seen then member_values rest seen
      else v :: member_values rest (v :: seen)
  end.

Section Enums.
(** [repr] of a string, and [str] of a list of strings. *)
Variable py_repr : string -> string.

Definition str_of_list (l : list string) : string :=
  "[" ++ String.concat ", " (map py_repr l) ++ "]".

(** [Enum._missing_]: [None], or the error with the values to choose from. *)
Definition _missing_ (cls : EnumClass) (value : string) : result unit :=
  if str_in value (dict_keys (enum_members cls)) then Ok tt
  else Raise (ValueError
                ("'" ++ value ++ "' is not a valid " ++ enum_module cls ++ "."
                     ++ enum_name cls ++ ". Expected one of "
                     ++ str_of_list (member_values (enum_members cls) []))
                []).

(** [cls(value)]: the member of that value, by name; failing that the hook
    [_missing_], and when the hook returns [None] the error of [enum]. *)
Definition enum_call (cls : EnumClass) (value : string) : result string :=
  match value2member (enum_members cls) value with
  | Some member => Ok member
  | None =>
      _ <- _missing_ cls value ;;
      Raise (ValueError (py_repr value ++ " is not a valid " ++ enum_name cls) [])
  end.
End Enums.

(** [repr] of a string that holds no quote and nothing to escape. *)
Definition simple_repr (s : string) : string := "'" ++ s ++ "'".

(** * Properties *)

(** ** Induction over the class tree *)

Section ModelClass_induction.
Variable P : ModelClass -> Prop.
Hypothesis step : forall name enc fields,
    (forall n f c, In (n, f) fields -> type_ f = TModel c -> P c) ->
    P (mkClass name enc fields).

Lemma ModelClass_ind : forall m, P m.
Proof.
  fix IH 1. intros [name enc fields]. apply step.
  induction fields as [|[n' f'] fs' IHfs]; intros n f c Hin Ht.
  - destruct Hin.
  - destruct Hin as [e|Hin].
    + injection e as <- <-. destruct f' as [ty sh an ex]. simpl in Ht.
      destruct ty as [s|c0]; [discriminate|].
      injection Ht as <-. apply IH.
    + eapply IHfs; eauto.
Qed.
End ModelClass_induction.

(** ** flatten_fields *)

Lemma flatten_fields_unfold name enc fields :
  flatten_fields (mkClass name enc fields)
  = flat_map (fun kf => field_paths (fst kf) (snd kf)) fields.
Proof.
  induction fields as [|[n f] fs IH]; [reflexivity|].
  simpl in *. rewrite <- IH. unfold field_paths, singular_model.
  destruct (type_ f); [reflexivity|].
  destruct (Shape_eqb (shape f) SHAPE_SINGLETON); reflexivity.
Qed.

Lemma spec_leaf_paths_unfold name enc fields :
  spec_leaf_paths (mkClass name enc fields)
  = flat_map (fun kf =>
                match singular_model (snd kf) with
                | Some child => map (cons (fst kf)) (spec_leaf_paths child)
                | None => [[fst kf]]
                end) fields.
Proof.
  simpl. apply flat_map_ext. intros [n f]. unfold singular_model. simpl.
  destruct (type_ f); [reflexivity|]. destruct (shape f); reflexivity.
Qed.

Lemma spec_leaf_paths_nonempty : forall schema p,
    In p (spec_leaf_paths schema) -> p <> [].
Proof.
  intros [name enc fields] p. rewrite spec_leaf_paths_unfold.
  rewrite in_flat_map. intros [[n f] [_ Hp]]. simpl in Hp.
  destruct (singular_model f).
  - apply in_map_iff in Hp. destruct Hp as [q [<- _]]. discriminate.
  - destruct Hp as [<-|[]]. discriminate.
Qed.

Lemma join_cons n p : p <> [] -> PyStr.join (n :: p) = PyStr.dotted n (PyStr.join p).
Proof. destruct p; [congruence|reflexivity]. Qed.

Lemma flatten_fields_spec : forall schema,
    flatten_fields schema = map PyStr.join (spec_leaf_paths schema).
Proof.
  induction schema as [name enc fields IH] using ModelClass_ind.
  rewrite flatten_fields_unfold, spec_leaf_paths_unfold.
  induction fields as [|[n f] fs IHfs]; [reflexivity|].
  simpl. rewrite map_app. f_equal.
  - unfold field_paths. destruct (singular_model f) as [c|] eqn:Hs; [|reflexivity].
    assert (Ht : type_ f = TModel c).
    { unfold singular_model in Hs. destruct (type_ f); [discriminate|].
      destruct (Shape_eqb _ _); congruence. }
    rewrite (IH n f c (or_introl eq_refl) Ht).
    rewrite !map_map. apply map_ext_in. intros p Hp.
    symmetry. apply join_cons. eapply spec_leaf_paths_nonempty; eauto.
  - apply IHfs. intros n' f' c' Hin. apply (IH n' f' c'). right. exact Hin.
Qed.

Lemma singular_model_type f c :
  singular_model f = Some c -> type_ f = TModel c /\ shape f = SHAPE_SINGLETON.
Proof.
  unfold singular_model. destruct (type_ f); [discriminate|].
  destruct (shape f); simpl; intros H; inversion H; auto.
Qed.

Lemma spec_leaf_paths_leaf_at : forall schema p,
    In p (spec_leaf_paths schema) <-> leaf_at schema p.
Proof.
  induction schema as [name enc fields IH] using ModelClass_ind.
  intros p. rewrite spec_leaf_paths_unfold, in_flat_map. split.
  - intros [[n f] [Hin Hp]]. simpl in Hp.
    destruct (singular_model f) as [c|] eqn:Hs.
    + apply in_map_iff in Hp. destruct Hp as [q [<- Hq]].
      eapply leaf_below; eauto.
      apply (IH n f c Hin); [apply (singular_model_type _ Hs)|exact Hq].
    + destruct Hp as [<-|[]]. eapply leaf_here; eauto.
  - intros H. inversion H as [s n f Hin Hs|s n f c q Hin Hs Hq]; subst; simpl in Hin.
    + exists (n, f). split; [exact Hin|]. simpl. rewrite Hs. left. reflexivity.
    + exists (n, f). split; [exact Hin|]. simpl. rewrite Hs.
      apply in_map. apply (IH n f c Hin); [apply (singular_model_type _ Hs)|exact Hq].
Qed.

Lemma flatten_fields_app name enc pre post :
  flatten_fields (mkClass name enc (pre ++ post))
  = flatten_fields (mkClass name enc pre) ++ flatten_fields (mkClass name enc post).
Proof. rewrite !flatten_fields_unfold. apply flat_map_app. Qed.

(** C5 (flattening order).  [flatten_fields] yields the dot-joined paths of
    the leaves of the Schema, depth first and in declaration order
    ([spec_leaf_paths]); these are exactly the paths that lead through
    singular nested models to a field that is not one ([leaf_at]); the
    fields of a class contribute one after the other, a singular nested
    model by its own flattening under the field's name, and a nested model
    of any other shape (a list of models) by its name alone. *)
Theorem flatten_fields_order : forall schema,
    flatten_fields schema = map PyStr.join (spec_leaf_paths schema)
    /\ (forall p, In p (spec_leaf_paths schema) <-> leaf_at schema p)
    /\ (forall name enc pre n f post c,
           schema = mkClass name enc (pre ++ (n, f) :: post) ->
           type_ f = TModel c ->
           flatten_fields schema
           = flatten_fields (mkClass name enc pre)
               ++ (if Shape_eqb (shape f) SHAPE_SINGLETON
                   then map (PyStr.dotted n) (flatten_fields c)
                   else [n])
               ++ flatten_fields (mkClass name enc post)).
Proof.
  intros schema. split; [apply flatten_fields_spec|].
  split; [apply spec_leaf_paths_leaf_at|].
  intros name enc pre n f post c -> Ht.
  rewrite flatten_fields_app. f_equal.
  change ((n, f) :: post) with ([(n, f)] ++ post).
  rewrite flatten_fields_app. f_equal.
  simpl. rewrite Ht. destruct (Shape_eqb _ _); [apply app_nil_r|reflexivity].
Qed.

Lemma flatten_fields_order_witness :
  flatten_fields Ex.Family
  = ["field"; "child.field_1"; "child.field_2"] ++ ["kids"] ++ ["last"].
Proof.
  exact (proj2 (proj2 (flatten_fields_order Ex.Family))
           "Family" [] [("field", Ex.scalar "str");
                        ("child", mkField (TModel Ex.Child) SHAPE_SINGLETON true [])]
           "kids" (mkField (TModel Ex.Child) SHAPE_LIST true [])
           [("last", Ex.optional "str")] Ex.Child eq_refl eq_refl).
Defined.

(** ** get_fields *)

Lemma str_in_In x xs : str_in x xs = true <-> In x xs.
Proof.
  unfold str_in. rewrite existsb_exists. split.
  - intros [y [Hy He]]. apply String.eqb_eq in He. subst. exact Hy.
  - intros H. exists x. split; [exact H|apply String.eqb_refl].
Qed.

Lemma filter_nil_existsb {A} (p : A -> bool) l :
  existsb p l = false <-> filter p l = [].
Proof.
  induction l as [|a l IH]; simpl; [tauto|].
  destruct (p a); simpl; [split; discriminate|exact IH].
Qed.

(** The flag [found] is set exactly when the entry matches some field. *)
Lemma include_found_matches fields i :
  include_found fields i = existsb (entry_matches i) fields.
Proof.
  unfold include_found, entry_matches, PyStr.startswith.
  destruct (PyStr.contains PyStr.star i); reflexivity.
Qed.

Lemma include_yield_found fields i :
  include_found fields i = true -> include_yield fields i = spec_entry_yield fields i.
Proof.
  unfold include_found, include_yield, spec_entry_yield, entry_matches, PyStr.startswith.
  destruct (PyStr.contains PyStr.star i); [reflexivity|].
  intros ->. reflexivity.
Qed.

Lemma include_yield_not_found fields i :
  include_found fields i = false -> include_yield fields i = [].
Proof.
  unfold include_found, include_yield, PyStr.startswith.
  destruct (PyStr.contains PyStr.star i).
  - apply filter_nil_existsb.
  - intros ->. reflexivity.
Qed.

Lemma get_fields_include_all_found model fields include :
  forallb (include_found fields) include = true ->
  get_fields_include model fields include
  = mkGen (flat_map (spec_entry_yield fields) include) None.
Proof.
  induction include as [|i rest IH]; simpl; [reflexivity|].
  intros H. apply andb_true_iff in H. destruct H as [Hi Hrest].
  rewrite Hi, (IH Hrest), (include_yield_found _ _ Hi). reflexivity.
Qed.

Lemma get_fields_include_first_bad model fields pre bad post :
  forallb (include_found fields) pre = true ->
  include_found fields bad = false ->
  get_fields_include model fields (pre ++ bad :: post)
  = mkGen (flat_map (spec_entry_yield fields) pre)
          (Some (ValueError (not_a_valid_field_path bad model) fields)).
Proof.
  induction pre as [|i rest IH]; simpl; intros Hpre Hbad.
  - rewrite Hbad, (include_yield_not_found _ _ Hbad). reflexivity.
  - apply andb_true_iff in Hpre. destruct Hpre as [Hi Hrest].
    rewrite Hi, (IH Hrest Hbad), (include_yield_found _ _ Hi).
    unfold gen_app. simpl. reflexivity.
Qed.

Lemma get_fields_some model i rest flat :
  get_fields model (Some (i :: rest)) flat
  = get_fields_include model (all_fields model flat) (i :: rest).
Proof. reflexivity. Qed.

Lemma found_iff_exists fields i :
  include_found fields i = true
  <-> exists f, In f fields /\ entry_matches i f = true.
Proof. rewrite include_found_matches. apply existsb_exists. Qed.

Lemma all_found fields include :
  (forall i, In i include -> exists f, In f fields /\ entry_matches i f = true) ->
  forallb (include_found fields) include = true.
Proof.
  intros H. apply forallb_forall. intros i Hi. apply found_iff_exists. auto.
Qed.

Lemma remove_star_suffix p :
  PyStr.contains PyStr.star p = false ->
  PyStr.remove PyStr.star (p ++ "*") = p.
Proof.
  induction p as [|a p IH]; simpl; [reflexivity|].
  intros H. apply orb_false_iff in H. destruct H as [Ha Hp].
  rewrite Ha, (IH Hp). reflexivity.
Qed.

Lemma contains_star_suffix p : PyStr.contains PyStr.star (p ++ "*") = true.
Proof.
  induction p as [|a p IH]; simpl; [reflexivity|].
  rewrite IH. apply orb_true_r.
Qed.

(** C6 (include filtering).  For a non-empty include list whose entries all
    match some field, [get_fields] ends without an error and yields the
    entries' contributions one after the other, in the order of the include
    list: an entry [p*] contributes the fields that start with [p], in
    Schema order, and an entry without a wildcard marker contributes
    itself, once. *)
Theorem get_fields_include_semantics model include flat :
  include <> [] ->
  (forall i, In i include ->
             exists f, In f (all_fields model flat) /\ entry_matches i f = true) ->
  get_fields model (Some include) flat
  = mkGen (flat_map (spec_entry_yield (all_fields model flat)) include) None
  /\ (forall p, PyStr.contains PyStr.star p = false ->
                spec_entry_yield (all_fields model flat) (p ++ "*")
                = filter (fun f => String.prefix p f) (all_fields model flat))
  /\ (forall i, PyStr.contains PyStr.star i = false ->
                spec_entry_yield (all_fields model flat) i = [i]).
Proof.
  intros Hne Hall. split; [|split].
  - destruct include as [|i rest]; [congruence|].
    rewrite get_fields_some.
    apply get_fields_include_all_found, all_found, Hall.
  - intros p Hp. unfold spec_entry_yield, entry_matches.
    rewrite contains_star_suffix, (remove_star_suffix _ Hp). reflexivity.
  - intros i Hi. unfold spec_entry_yield. rewrite Hi. reflexivity.
Qed.

Lemma get_fields_include_semantics_witness :
  get_fields Ex.FileEvent (Some ["file.*"]) true
  = mkGen ["file.name"; "file.size"] None.
Proof.
  refine (proj1 (@get_fields_include_semantics Ex.FileEvent ["file.*"] true _ _)).
  - discriminate.
  - intros i [<-|[]]. exists "file.name". split; [|reflexivity].
    simpl. auto.
Defined.

Lemma first_bad_split fields include :
  forallb (include_found fields) include = false ->
  exists pre bad post,
    include = pre ++ bad :: post
    /\ forallb (include_found fields) pre = true
    /\ include_found fields bad = false.
Proof.
  induction include as [|i rest IH]; simpl; [discriminate|].
  destruct (include_found fields i) eqn:Hi; simpl.
  - intros H. destruct (IH H) as [pre [bad [post [-> [Hp Hb]]]]].
    exists (i :: pre), bad, post. simpl. rewrite Hi, Hp. auto.
  - intros _. exists [], i, rest. auto.
Qed.

(** C7 (unresolvable include pattern).  When some entry of the include list
    matches no field, [get_fields] raises at the first such entry: what it
    yielded before is the contribution of the entries in front of it,
    nothing of the entries behind it is looked at, and the error carries the
    entry, in its message, and the whole list of valid field names.  And
    whenever [get_fields] ends without an error, every entry of the include
    list has a matching field among the yielded ones: no entry is dropped
    silently. *)
Theorem get_fields_unresolvable model include flat :
  (forall bad,
      In bad include ->
      (forall f, In f (all_fields model flat) -> entry_matches bad f = false) ->
      exists pre bad' post,
        include = pre ++ bad' :: post
        /\ (forall i, In i pre ->
              exists f, In f (all_fields model flat) /\ entry_matches i f = true)
        /\ (forall f, In f (all_fields model flat) -> entry_matches bad' f = false)
        /\ get_fields model (Some include) flat
           = mkGen (flat_map (spec_entry_yield (all_fields model flat)) pre)
                   (Some (ValueError
                            ("'" ++ bad' ++ "' is not a valid field path for model: "
                                 ++ cls_name model)
                            (all_fields model flat))))
  /\ (raised (get_fields model (Some include) flat) = None ->
      forall i, In i include ->
        exists f, In f (all_fields model flat) /\ entry_matches i f = true
                  /\ In f (yielded (get_fields model (Some include) flat))).
Proof.
  set (fields := all_fields model flat).
  assert (Hnf : forall i, include_found fields i = false <->
                          forall f, In f fields -> entry_matches i f = false).
  { intros i. rewrite include_found_matches. split.
    - intros H f Hf. destruct (entry_matches i f) eqn:E; [|reflexivity].
      assert (existsb (entry_matches i) fields = true)
        by (apply existsb_exists; eauto). congruence.
    - intros H. destruct (existsb (entry_matches i) fields) eqn:E; [|reflexivity].
      apply existsb_exists in E. destruct E as [f [Hf Hm]].
      rewrite (H f Hf) in Hm. discriminate. }
  split.
  - intros bad Hin Hbad.
    assert (Hall : forallb (include_found fields) include = false).
    { destruct (forallb (include_found fields) include) eqn:E; [|reflexivity].
      rewrite forallb_forall in E. apply Hnf in Hbad.
      rewrite (E bad Hin) in Hbad. discriminate. }
    destruct (first_bad_split _ _ Hall) as [pre [bad' [post [-> [Hpre Hb]]]]].
    exists pre, bad', post. split; [reflexivity|]. split; [|split].
    + intros i Hi. apply found_iff_exists.
      rewrite forallb_forall in Hpre. auto.
    + apply Hnf, Hb.
    + assert (Hs : exists x xs, pre ++ bad' :: post = x :: xs)
        by (destruct pre; simpl; eauto).
      destruct Hs as [x [xs Hs]]. rewrite Hs, get_fields_some, <- Hs.
      apply get_fields_include_first_bad; assumption.
  - intros Hr i Hi.
    destruct include as [|x xs]; [destruct Hi|].
    rewrite get_fields_some in *. fold fields in Hr |- *.
    destruct (forallb (include_found fields) (x :: xs)) eqn:E.
    + rewrite (get_fields_include_all_found model _ _ E). cbn [yielded].
      rewrite forallb_forall in E. specialize (E i Hi).
      destruct (PyStr.contains PyStr.star i) eqn:Hstar.
      * apply found_iff_exists in E. destruct E as [f [Hf Hm]].
        exists f. split; [exact Hf|]. split; [exact Hm|].
        apply in_flat_map. exists i. split; [exact Hi|].
        unfold spec_entry_yield. rewrite Hstar. apply filter_In. auto.
      * unfold include_found in E. rewrite Hstar in E. apply str_in_In in E.
        exists i. split; [exact E|]. split.
        -- unfold entry_matches. rewrite Hstar. apply String.eqb_refl.
        -- apply in_flat_map. exists i. split; [exact Hi|].
           unfold spec_entry_yield. rewrite Hstar. left. reflexivity.
    + destruct (first_bad_split _ _ E) as [pre [bad' [post [Heq [Hpre Hb]]]]].
      rewrite Heq, (get_fields_include_first_bad model _ _ _ post Hpre Hb) in Hr.
      discriminate.
Qed.

Lemma get_fields_unresolvable_witness :
  exists pre bad' post,
    ["file.*"; "nope"; "event.id"] = pre ++ bad' :: post
    /\ (forall i, In i pre ->
          exists f, In f (all_fields Ex.FileEvent true) /\ entry_matches i f = true)
    /\ (forall f, In f (all_fields Ex.FileEvent true) -> entry_matches bad' f = false)
    /\ get_fields Ex.FileEvent (Some ["file.*"; "nope"; "event.id"]) true
       = mkGen (flat_map (spec_entry_yield (all_fields Ex.FileEvent true)) pre)
               (Some (ValueError
                        ("'" ++ bad' ++ "' is not a valid field path for model: "
                             ++ cls_name Ex.FileEvent)
                        (all_fields Ex.FileEvent true))).
Proof.
  apply (proj1 (get_fields_unresolvable Ex.FileEvent
                  ["file.*"; "nope"; "event.id"] true) "nope").
  - simpl. auto.
  - intros f Hf. simpl in Hf.
    destruct Hf as [<-|[<-|[<-|[]]]]; reflexivity.
Defined.

Example get_fields_raises_at_nope :
  get_fields Ex.FileEvent (Some ["file.*"; "nope"; "event.id"]) true
  = mkGen ["file.name"; "file.size"]
          (Some (ValueError "'nope' is not a valid field path for model: FileEvent"
                            ["event.id"; "file.name"; "file.size"])).
Proof. reflexivity. Qed.






Example get_fields_yields_a_path_twice :
  get_fields Ex.FileEvent (Some ["file.name"; "file.*"]) true
  = mkGen ["file.name"; "file.name"; "file.size"] None.
Proof. reflexivity. Qed.

(** ** get_field_value_and_info *)

Lemma distinct_sget {V} (d : sdict V) n v :
  distinct (dict_keys d) = true -> In (n, v) d -> sget d n = Some v.
Proof.
  induction d as [|[k w] d IH]; simpl; [tauto|].
  intros Hd Hin. apply andb_true_iff in Hd. destruct Hd as [Hk Hd].
  unfold sget in *. simpl. destruct Hin as [e|Hin].
  - injection e as -> ->. rewrite String.eqb_refl. reflexivity.
  - destruct (String.eqb k n) eqn:E.
    + apply String.eqb_eq in E. subst k.
      apply negb_true_iff in Hk.
      assert (str_in n (dict_keys d) = true).
      { apply str_in_In. unfold dict_keys. apply in_map_iff.
        exists (n, v). auto. }
      congruence.
    + apply IH; assumption.
Qed.

Lemma wf_class_fields name enc fields :
  wf_class (mkClass name enc fields) = true ->
  distinct (dict_keys fields) = true
  /\ forall n f, In (n, f) fields ->
       PyStr.contains PyStr.dot n = false
       /\ forall c, type_ f = TModel c -> wf_class c = true.
Proof.
  simpl. intros H. apply andb_true_iff in H. destruct H as [Hd Hf].
  split; [exact Hd|]. intros n f Hin.
  rewrite forallb_forall in Hf. specialize (Hf _ Hin). simpl in Hf.
  apply andb_true_iff in Hf. destruct Hf as [Hn Hc].
  split; [apply negb_true_iff, Hn|].
  intros c Ht. rewrite Ht in Hc. exact Hc.
Qed.

Lemma wf_class_sget c n f :
  wf_class c = true -> In (n, f) (cls_fields c) -> sget (cls_fields c) n = Some f.
Proof.
  destruct c as [name enc fields]. intros Hwf Hin.
  apply distinct_sget; [apply (wf_class_fields _ _ _ Hwf)|exact Hin].
Qed.

Lemma wf_class_child c n f child :
  wf_class c = true -> In (n, f) (cls_fields c) ->
  singular_model f = Some child -> wf_class child = true.
Proof.
  destruct c as [name enc fields]. intros Hwf Hin Hs.
  destruct (wf_class_fields _ _ _ Hwf) as [_ H].
  apply (H n f Hin). apply (singular_model_type _ Hs).
Qed.

Lemma conforms_shaped : forall c v, conforms c v -> shaped c v.
Proof.
  induction c as [name enc fields IH] using ModelClass_ind.
  intros v Hv. inversion Hv as [c d Hd]; subst. constructor.
  intros n f Hin. destruct (Hd n f Hin) as [x [Hx Hf]].
  exists x. split; [exact Hx|].
  inversion Hf as [f0 Ha|f0 child x0 Hs Hc|f0 x0 Hs Hn]; subst.
  - left. reflexivity.
  - right. intros child' Hs'. rewrite Hs in Hs'. injection Hs' as <-.
    apply (IH n f child Hin); [apply (singular_model_type _ Hs)|exact Hc].
  - right. intros child Hs'. congruence.
Qed.

Lemma sget_construct_none {V} (d : sdict V) n :
  sget (map (fun kf => (fst kf, VNone)) d) n
  = match sget d n with Some _ => Some VNone | None => None end.
Proof.
  unfold sget. induction d as [|[k w] d IH]; simpl; [reflexivity|].
  destruct (String.eqb k n); [reflexivity|exact IH].
Qed.

Lemma sget_In {V} (d : sdict V) n v : In (n, v) d -> exists w, sget d n = Some w.
Proof.
  unfold sget. induction d as [|[k w] d IH]; simpl; [tauto|].
  intros [e|Hin].
  - injection e as -> ->. rewrite String.eqb_refl. eauto.
  - destruct (String.eqb k n); eauto.
Qed.

Lemma shaped_construct_none c : shaped c (construct_none c).
Proof.
  constructor. intros n f Hin. exists VNone. split; [|left; reflexivity].
  rewrite sget_construct_none. destruct (sget_In _ _ _ Hin) as [w ->]. reflexivity.
Qed.

Lemma field_path_nonempty schema p : field_path schema p -> p <> [].
Proof. destruct 1; discriminate. Qed.

Section Resolver_properties.
Variable type_attr : Value -> string -> option Value.

Lemma get_field_value_and_info_cons model n q :
  q <> [] ->
  get_field_value_and_info type_attr model (n :: q)
  = (m <- descend type_attr model n ;; get_field_value_and_info type_attr m q).
Proof.
  intros Hq. destruct q as [|n' q']; [congruence|].
  unfold get_field_value_and_info.
  change (removelast (n :: n' :: q')) with (n :: removelast (n' :: q')).
  change (last (n :: n' :: q') "") with (last (n' :: q') "").
  cbn [descend_all]. destruct (descend type_attr model n); reflexivity.
Qed.

Lemma spec_field_cons schema n f child q :
  q <> [] -> sget (cls_fields schema) n = Some f -> type_ f = TModel child ->
  spec_field schema (n :: q) = spec_field child q.
Proof.
  intros Hq Hf Ht. destruct q as [|n' q']; [congruence|].
  cbn [spec_field]. rewrite Hf, Ht. reflexivity.
Qed.

Lemma plain_value_none q : q <> [] -> plain_value VNone q = None.
Proof. destruct q; [congruence|reflexivity]. Qed.

Lemma field_path_head c n q :
  field_path c (n :: q) -> exists f, In (n, f) (cls_fields c).
Proof. inversion 1; subst; eauto. Qed.

(** Below a placeholder every value is [None]. *)
Lemma resolves_placeholder c q v f :
  field_path c q -> resolves type_attr c (construct_none c) q v f -> v = VNone.
Proof.
  intros Hq (_ & _ & Hfull & Hpre).
  destruct q as [|n q']; [elim (field_path_nonempty Hq); reflexivity|].
  destruct (field_path_head Hq) as [f' Hin].
  assert (Hn : plain_value (construct_none c) [n] = Some VNone).
  { cbn [plain_value construct_none]. rewrite sget_construct_none.
    destruct (sget_In _ _ _ Hin) as [w ->]. reflexivity. }
  destruct q' as [|n' q''].
  - apply Hfull. exact Hn.
  - apply (Hpre [n] (n' :: q'')); [reflexivity|discriminate|exact Hn].
Qed.

Lemma resolve_field_path : forall schema p,
    field_path schema p ->
    wf_class schema = true ->
    forall record, shaped schema record ->
    exists v f, resolves type_attr schema record p v f.
Proof.
  induction 1 as [S n f Hin|S n f child q Hin Hs Hq IH]; intros Hwf R HR.
  - inversion HR as [c d Hd]; subst.
    destruct (Hd n f Hin) as [x [Hx _]].
    exists x, f. unfold resolves. repeat split.
    + unfold get_field_value_and_info. cbn. rewrite Hx. cbn.
      rewrite (wf_class_sget _ _ _ Hwf Hin). reflexivity.
    + cbn. apply (wf_class_sget _ _ _ Hwf Hin).
    + cbn. rewrite Hx. congruence.
    + intros pre post Hp Hpost Hv.
      destruct pre as [|a pre]; [discriminate|].
      destruct pre; [|destruct pre; discriminate].
      destruct post; [congruence|discriminate].
  - pose proof (field_path_nonempty Hq) as Hne.
    pose proof (wf_class_child _ _ _ Hwf Hin Hs) as Hwfc.
    pose proof (wf_class_sget _ _ _ Hwf Hin) as Hget.
    destruct (singular_model_type _ Hs) as [Ht _].
    inversion HR as [c d Hd]; subst.
    destruct (Hd n f Hin) as [x [Hx Hsh]].
    assert (Hm : exists m, descend type_attr (VModel S d) n = Ok m /\ shaped child m
                           /\ (x = VNone -> m = construct_none child)
                           /\ (x <> VNone -> m = x)).
    { unfold descend, getattr. rewrite Hx. cbn [bind].
      destruct Hsh as [->|Hsh].
      - cbn. rewrite Hget, Ht. eexists. split; [reflexivity|].
        split; [apply shaped_construct_none|]. split; congruence.
      - specialize (Hsh child Hs). inversion Hsh; subst.
        eexists. split; [reflexivity|]. split; [exact Hsh|].
        split; [discriminate|reflexivity]. }
    destruct Hm as [m [Hdesc [Hshm [Hnone Hsome]]]].
    destruct (IH Hwfc m Hshm) as [v [fv Hres]].
    exists v, fv. pose proof Hres as (Hget' & Hfield & Hfull & Hpre).
    unfold resolves. repeat split.
    + rewrite (get_field_value_and_info_cons _ _ Hne), Hdesc. exact Hget'.
    + rewrite (spec_field_cons _ _ Hne Hget Ht). exact Hfield.
    + intros v'. cbn [plain_value]. rewrite Hx.
      destruct Hsh as [->|Hsh].
      * rewrite (plain_value_none Hne). discriminate.
      * assert (Hmx : m = x)
          by (apply Hsome; specialize (Hsh child Hs); inversion Hsh; discriminate).
        rewrite <- Hmx. apply Hfull.
    + intros pre post Hp Hpost Hv.
      destruct pre as [|a pre]; [discriminate|].
      injection Hp as <- ->.
      cbn [plain_value] in Hv. rewrite Hx in Hv.
      destruct Hsh as [->|Hsh].
      * rewrite (Hnone eq_refl) in Hres.
        apply (resolves_placeholder Hq Hres).
      * assert (Hmx : m = x)
          by (apply Hsome; specialize (Hsh child Hs); inversion Hsh; discriminate).
        rewrite <- Hmx in Hv.
        apply (Hpre pre post); [reflexivity|exact Hpost|exact Hv].
Qed.

Lemma split_dot_free s :
  PyStr.contains PyStr.dot s = false -> PyStr.split PyStr.dot s = [s].
Proof.
  induction s as [|a s IH]; cbn; [reflexivity|].
  intros H. apply orb_false_iff in H. destruct H as [Ha Hs].
  rewrite Ha, (IH Hs). reflexivity.
Qed.

Lemma split_dotted a b :
  PyStr.contains PyStr.dot a = false ->
  PyStr.split PyStr.dot (PyStr.dotted a b) = a :: PyStr.split PyStr.dot b.
Proof.
  unfold PyStr.dotted. induction a as [|c a IH]; cbn; [reflexivity|].
  intros H. apply orb_false_iff in H. destruct H as [Hc Ha].
  rewrite Hc. cbn in IH. rewrite (IH Ha). reflexivity.
Qed.

Lemma split_join p :
  p <> [] -> Forall (fun n => PyStr.contains PyStr.dot n = false) p ->
  PyStr.split PyStr.dot (PyStr.join p) = p.
Proof.
  induction p as [|a p IH]; [congruence|]. intros _ Hall.
  inversion Hall as [|? ? Ha Hp]; subst.
  destruct p as [|b r]; [apply split_dot_free, Ha|].
  rewrite join_cons by discriminate.
  rewrite (split_dotted a _ Ha), IH; [reflexivity|discriminate|exact Hp].
Qed.

Lemma leaf_at_field_path schema p : leaf_at schema p -> field_path schema p.
Proof.
  induction 1 as [S n f Hin Hs|S n f child q Hin Hs Hq IH].
  - eapply field_path_here; eauto.
  - eapply field_path_below; eauto.
Qed.

Lemma field_path_dot_free schema p :
  field_path schema p -> wf_class schema = true ->
  Forall (fun n => PyStr.contains PyStr.dot n = false) p.
Proof.
  induction 1 as [S n f Hin|S n f child q Hin Hs Hq IH]; intros Hwf;
    destruct S as [name enc fields];
    destruct (wf_class_fields _ _ _ Hwf) as [_ Hf];
    destruct (Hf n f Hin) as [Hn Hc].
  - constructor; [exact Hn|constructor].
  - constructor; [exact Hn|]. apply IH. apply (Hc child).
    apply (singular_model_type _ Hs).
Qed.

Lemma include_yield_incl fields i f :
  In f (include_yield fields i) -> In f fields.
Proof.
  unfold include_yield. destruct (PyStr.contains PyStr.star i).
  - intros H. apply filter_In in H. tauto.
  - destruct (str_in i fields) eqn:E; [|intros []].
    intros [<-|[]]. apply str_in_In, E.
Qed.

Lemma get_fields_include_incl model fields include f :
  In f (yielded (get_fields_include model fields include)) -> In f fields.
Proof.
  induction include as [|i rest IH]; cbn; [tauto|].
  destruct (include_found fields i); cbn.
  - rewrite in_app_iff. intros [H|H]; [eapply include_yield_incl; eauto|auto].
  - apply include_yield_incl.
Qed.

Lemma get_fields_incl model include flat f :
  In f (yielded (get_fields model include flat)) -> In f (all_fields model flat).
Proof.
  unfold get_fields. fold (all_fields model flat).
  destruct include as [[|i rest]|]; cbn [gen_of_list yielded]; try tauto.
  apply get_fields_include_incl.
Qed.

(** Every name the Schema Walker produces splits into a Field Path of the
    Schema. *)
Lemma all_fields_field_path model flat name :
  wf_class model = true -> In name (all_fields model flat) ->
  field_path model (PyStr.split PyStr.dot name).
Proof.
  intros Hwf Hin. destruct flat; cbn [all_fields] in Hin.
  - rewrite flatten_fields_spec in Hin. apply in_map_iff in Hin.
    destruct Hin as [p [<- Hp]]. apply spec_leaf_paths_leaf_at in Hp.
    apply leaf_at_field_path in Hp.
    rewrite split_join; [exact Hp|eapply field_path_nonempty; eauto|].
    apply (field_path_dot_free Hp Hwf).
  - unfold dict_keys in Hin. apply in_map_iff in Hin.
    destruct Hin as [[n f] [<- Hin]]. cbn.
    assert (Hp : field_path model [n]) by (eapply field_path_here; eauto).
    pose proof (field_path_dot_free Hp Hwf) as Hd. inversion Hd; subst.
    rewrite split_dot_free by assumption. exact Hp.
Qed.

(** C1 (resolver totality).  For a Schema as Python builds it, a Record
    conforming to it and a name yielded by the Schema Walker ([get_fields],
    flat or not, with any include list), the resolver returns a value and
    the metadata of the field: it raises nothing.  The metadata is the one
    the Schema declares at that path; the value is the one the Record holds
    there, and it is [None] when a node on the way is absent, the resolver
    going on through a placeholder. *)
Theorem resolver_total schema record include flat name :
  wf_class schema = true ->
  conforms schema record ->
  In name (yielded (get_fields schema include flat)) ->
  exists v f,
    get_field_value_and_info type_attr record (PyStr.split PyStr.dot name) = Ok (v, Some f)
    /\ spec_field schema (PyStr.split PyStr.dot name) = Some f
    /\ (forall v', plain_value record (PyStr.split PyStr.dot name) = Some v' -> v = v')
    /\ (forall pre post,
           PyStr.split PyStr.dot name = pre ++ post -> post <> [] ->
           plain_value record pre = Some VNone -> v = VNone).
Proof.
  intros Hwf Hc Hin.
  apply get_fields_incl in Hin.
  apply (all_fields_field_path _ _ _ Hwf) in Hin.
  apply (resolve_field_path Hin Hwf (conforms_shaped Hc)).
Qed.

End Resolver_properties.

Lemma conforms_lonely : conforms Ex.Family Ex.lonely.
Proof.
  constructor. intros n f Hin. cbn in Hin.
  destruct Hin as [e|[e|[e|[e|[]]]]]; injection e as <- <-;
    eexists; (split; [reflexivity|]).
  - apply conforms_plain; [reflexivity|discriminate].
  - apply conforms_absent. reflexivity.
  - apply conforms_absent. reflexivity.
  - apply conforms_absent. reflexivity.
Qed.

Lemma resolver_total_witness :
  exists v f,
    get_field_value_and_info Ex.type_attr Ex.lonely (PyStr.split PyStr.dot "child.field_1")
    = Ok (v, Some f)
    /\ spec_field Ex.Family (PyStr.split PyStr.dot "child.field_1") = Some f
    /\ (forall v', plain_value Ex.lonely (PyStr.split PyStr.dot "child.field_1")
                   = Some v' -> v = v')
    /\ (forall pre post,
           PyStr.split PyStr.dot "child.field_1" = pre ++ post -> post <> [] ->
           plain_value Ex.lonely pre = Some VNone -> v = VNone).
Proof.
  apply (@resolver_total Ex.type_attr Ex.Family Ex.lonely None true "child.field_1").
  - reflexivity.
  - exact conforms_lonely.
  - cbn. auto.
Defined.

Example resolver_through_absent_child :
  get_field_value_and_info Ex.type_attr Ex.lonely ["child"; "field_1"]
  = Ok (VNone, Some (Ex.scalar "str")).
Proof. reflexivity. Qed.

(** ** iter_model_formatted *)

Lemma gen_for_yielded {A B} (body : A -> result B) xs tail b :
  In b (yielded (gen_for body xs tail)) ->
  exists x, In x xs /\ body x = Ok b.
Proof.
  induction xs as [|x xs IH]; cbn; [tauto|].
  destruct (body x) as [b'|e] eqn:E; cbn; [|tauto].
  intros [<-|H]; [eauto|].
  destruct (IH H) as [y [Hy Hb]]. eauto.
Qed.

Section Formatted_properties.
Variable type_attr : Value -> string -> option Value.
Variable call : string -> Value -> result Value.

(** What the loop body does with a resolved field whose entry under the
    requested name, if there is one, is a callable or falsy. *)
Lemma format_field_tiers cls d render name value field :
  get_field_value_and_info type_attr (VModel cls d) (PyStr.split PyStr.dot name)
  = Ok (value, field) ->
  render <> Some "" ->
  (forall f r e, field = Some f -> render = Some r -> sget (extra f) r = Some e ->
                 (exists fn, e = ECallable fn) \/ extra_truthy e = false) ->
  format_field type_attr call cls d render name
  = match declared_hint field render with
    | Some fn => v' <- call fn value ;; Ok (name, v')
    | None =>
        match sget (cls_json_encoders cls) (type_name value) with
        | Some enc => v' <- call enc value ;; Ok (name, v')
        | None => Ok (name, value)
        end
    end.
Proof.
  intros Hres Hr Hex. unfold format_field. rewrite Hres. cbn [bind fst snd].
  destruct field as [f|], render as [r|];
    cbn [declared_hint extra_get render_truthy extra_truthy andb];
    try rewrite andb_false_r; try reflexivity.
  assert (Hrt : negb (String.eqb r "") = true).
  { apply negb_true_iff, String.eqb_neq. congruence. }
  rewrite Hrt. cbn [andb].
  destruct (sget (extra f) r) as [e|] eqn:He; [|reflexivity].
  destruct (Hex f r e eq_refl eq_refl He) as [[fn ->]|Hf].
  - reflexivity.
  - rewrite Hf. destruct e; try reflexivity. discriminate.
Qed.

(** C4 (render precedence).  Whatever [iter_model_formatted] yields for a
    field, with a Render Hint name requested ([render] is not the empty
    string, which Python takes as no request): when the field's metadata
    declares a transformation under that name, the value is that
    transformation applied to the raw value, whatever the default
    encoders are; otherwise it is the root class's default encoder for
    the type of the raw value applied to it, when there is one, and
    otherwise the raw value. *)
Theorem render_precedence cls d include flat render name out :
  render <> Some "" ->
  In (name, out) (yielded (iter_model_formatted type_attr call cls d include flat render)) ->
  exists value field,
    get_field_value_and_info type_attr (VModel cls d) (PyStr.split PyStr.dot name)
    = Ok (value, field)
    /\ match declared_hint field render with
       | Some fn => call fn value = Ok out
       | None =>
           match sget (cls_json_encoders cls) (type_name value) with
           | Some enc => call enc value = Ok out
           | None => out = value
           end
       end.
Proof.
  intros Hr Hin. unfold iter_model_formatted in Hin.
  apply gen_for_yielded in Hin. destruct Hin as [x [_ Hbody]].
  unfold format_field in Hbody.
  destruct (get_field_value_and_info type_attr (VModel cls d) (PyStr.split PyStr.dot x))
    as [[value field]|e] eqn:Hres; [|discriminate].
  cbn [bind fst snd] in Hbody.
  assert (Hout : forall r, (v' <- r ;; Ok (x, v')) = Ok (name, out) ->
                           x = name /\ r = Ok out).
  { intros [v'|e]; cbn; [|discriminate].
    intros H. injection H as -> ->. auto. }
  assert (Hdefault :
            match sget (cls_json_encoders cls) (type_name value) with
            | Some json_encoder => v' <- call json_encoder value ;; Ok (x, v')
            | None => Ok (x, value)
            end = Ok (name, out) ->
            x = name
            /\ match sget (cls_json_encoders cls) (type_name value) with
               | Some enc => call enc value = Ok out
               | None => out = value
               end).
  { destruct (sget (cls_json_encoders cls) (type_name value)) as [enc|].
    - apply Hout.
    - intros H. injection H as -> ->. auto. }
  destruct field as [f|], render as [r|];
    cbn [declared_hint extra_get render_truthy andb extra_truthy] in *;
    try rewrite andb_false_r in Hbody;
    try (destruct (Hdefault Hbody) as [<- H]; exists value; eexists;
         split; [exact Hres|exact H]).
  assert (Hrt : negb (String.eqb r "") = true).
  { apply negb_true_iff, String.eqb_neq. congruence. }
  rewrite Hrt in Hbody. cbn [andb] in Hbody.
  destruct (sget (extra f) r) as [e|] eqn:He.
  - destruct e as [fn|s|z|b|]; cbn [extra_truthy call_extra] in Hbody.
    + destruct (Hout _ Hbody) as [<- H]. exists value, (Some f).
      unfold declared_hint. rewrite He. auto.
    + destruct (negb (String.eqb s "")); cbn [bind] in Hbody; [discriminate|].
      destruct (Hdefault Hbody) as [<- H]. exists value, (Some f).
      unfold declared_hint. rewrite He. auto.
    + destruct (negb (Z.eqb z 0)); cbn [bind] in Hbody; [discriminate|].
      destruct (Hdefault Hbody) as [<- H]. exists value, (Some f).
      unfold declared_hint. rewrite He. auto.
    + destruct b; cbn [bind] in Hbody; [discriminate|].
      destruct (Hdefault Hbody) as [<- H]. exists value, (Some f).
      unfold declared_hint. rewrite He. auto.
    + destruct (Hdefault Hbody) as [<- H]. exists value, (Some f).
      unfold declared_hint. rewrite He. auto.
  - cbn [extra_truthy] in Hbody.
    destruct (Hdefault Hbody) as [<- H]. exists value, (Some f).
    unfold declared_hint. rewrite He. auto.
Qed.
End Formatted_properties.

(** ** read_models_from_csv *)

Section Ingest_properties.
Variable validate : ModelClass -> sdict Value -> result Value.

Lemma read_models_loop_spec model path rows : forall error,
    only_validation_errors validate model rows ->
    read_models_loop validate model path rows error
    = mkGen (valid_records validate model rows)
            (match rev (failures validate model rows) with
             | last :: _ => Some (aggregate_error path last)
             | [] => error
             end).
Proof.
  induction rows as [|[line_num row] rest IH]; intros error Hok; [reflexivity|].
  assert (Hrest : only_validation_errors validate model rest).
  { intros r Hr. apply Hok. right. exact Hr. }
  specialize (Hok (line_num, row) (or_introl eq_refl)).
  change (valid_records validate model ((line_num, row) :: rest))
    with ((match row_outcome validate model row with
           | Ok m => [m]
           | Raise _ => []
           end) ++ valid_records validate model rest).
  change (failures validate model ((line_num, row) :: rest))
    with ((match row_outcome validate model row with
           | Raise (ValidationError detail) => [(line_num, detail)]
           | _ => []
           end) ++ failures validate model rest).
  cbn [read_models_loop snd] in *. unfold row_outcome in *.
  destruct (new_model validate model (blank_to_none row)) as [m|e].
  - rewrite (IH error Hrest). reflexivity.
  - destruct e; try contradiction.
    rewrite (IH _ Hrest). cbn [app]. f_equal.
    change ((line_num, detail) :: failures validate model rest)
      with ([(line_num, detail)] ++ failures validate model rest).
    rewrite rev_app_distr. cbn [rev app].
    destruct (rev (failures validate model rest)); reflexivity.
Qed.

(** C2, as the code has it.  When no row makes the constructor raise
    anything but a validation error, [read_models_from_csv] goes through
    all rows, yields the Record of every valid row, in order, and then
    raises nothing if no row failed, and otherwise one error, made of the
    LAST failure: its detail and the reader's line number at that row. *)
Theorem read_models_last_failure model path file :
  only_validation_errors validate model (DictReader file None) ->
  read_models_from_csv validate model path file
  = mkGen (valid_records validate model (DictReader file None))
          (match rev (failures validate model (DictReader file None)) with
           | last :: _ =>
               Some (CSVValidationError
                       ("Bad data in row " ++ PyStr.of_nat (fst last) ++ " of "
                          ++ path ++ String (ascii_of_nat 10) (snd last))
                       (fst last))
           | [] => None
           end).
Proof.
  intros Hok. unfold read_models_from_csv.
  apply read_models_loop_spec. exact Hok.
Qed.
End Ingest_properties.

Lemma read_models_last_failure_witness :
  read_models_from_csv Ex.validate Ex.Tag "tags.csv" Ex.one_bad_row
  = mkGen [VModel Ex.Tag [("name", VStr "a"); ("note", VStr "first")];
           VModel Ex.Tag [("name", VStr "c"); ("note", VNone)]]
          (Some (CSVValidationError
                   ("Bad data in row 3 of tags.csv"
                      ++ String (ascii_of_nat 10) "name: none is not an allowed value")
                   3)).
Proof.
  refine (@read_models_last_failure Ex.validate Ex.Tag "tags.csv" Ex.one_bad_row _).
  intros r Hr. cbn in Hr.
  destruct Hr as [<-|[<-|[<-|[]]]]; exact I.
Defined.

(** The claim of C2 fails where two rows fail: the error is made of the
    second failure, at line 4, and not of the first, at line 3. *)
Lemma first_failure_not_reported :
  ~ first_failure_reported Ex.validate Ex.Tag "tags.csv" Ex.two_bad_rows.
Proof.
  intros H. specialize (H (3, "name: none is not an allowed value") eq_refl).
  cbn in H. discriminate H.
Qed.

(** A blank line is skipped, and the row after it is reported under its
    own line number. *)
Example read_models_blank_line_row_number :
  read_models_from_csv Ex.validate Ex.Tag "tags.csv" Ex.blank_line_then_bad_row
  = mkGen [] (Some (CSVValidationError
                      ("Bad data in row 3 of tags.csv"
                         ++ String (ascii_of_nat 10) "name: none is not an allowed value")
                      3)).
Proof. reflexivity. Qed.

Example read_models_two_bad_rows :
  read_models_from_csv Ex.validate Ex.Tag "tags.csv" Ex.two_bad_rows
  = mkGen [VModel Ex.Tag [("name", VStr "a"); ("note", VStr "first")]]
          (Some (CSVValidationError
                   ("Bad data in row 4 of tags.csv"
                      ++ String (ascii_of_nat 10) "name: none is not an allowed value")
                   4)).
Proof. reflexivity. Qed.

(** ** Formatted iteration on an example *)

Lemma render_precedence_witness :
  exists value field,
    get_field_value_and_info Ex.type_attr (VModel Ex.Alert Ex.alert)
                             (PyStr.split PyStr.dot "created_at")
    = Ok (value, field)
    /\ match declared_hint field (Some "table") with
       | Some fn => Ex.call fn value = Ok (VStr "on 2020-02-19 01:57")
       | None =>
           match sget (cls_json_encoders Ex.Alert) (type_name value) with
           | Some enc => Ex.call enc value = Ok (VStr "on 2020-02-19 01:57")
           | None => VStr "on 2020-02-19 01:57" = value
           end
       end.
Proof.
  apply (@render_precedence Ex.type_attr Ex.call Ex.Alert Ex.alert None true (Some "table")
                            "created_at" (VStr "on 2020-02-19 01:57")).
  - discriminate.
  - cbn. auto.
Defined.

(** The hint wins over the encoder of the type, the encoder serves the
    field without a hint, and a string has neither. *)
Example iter_model_formatted_table :
  iter_model_formatted Ex.type_attr Ex.call Ex.Alert Ex.alert None true (Some "table")
  = mkGen [("id", VStr "a1");
           ("created_at", VStr "on 2020-02-19 01:57");
           ("closed_at", VStr "2020-02-20 08:00:00Z")] None.
Proof. reflexivity. Qed.

(** Asking for a name under which the metadata holds data, not a callable,
    ends the iteration with a [TypeError]. *)
Example iter_model_formatted_example :
  iter_model_formatted Ex.type_attr Ex.call Ex.Alert Ex.alert None true (Some "example")
  = mkGen [("id", VStr "a1")] (Some (TypeError "object is not callable")).
Proof. reflexivity. Qed.

(** ** Dicts *)

Section Dict_properties.
Context {K V : Type} (eqb : K -> K -> bool).
Hypothesis eqb_spec : forall a b, eqb a b = true <-> a = b.

Lemma eqb_false a b : a <> b -> eqb a b = false.
Proof.
  intros H. destruct (eqb a b) eqn:E; [|reflexivity].
  apply eqb_spec in E. contradiction.
Qed.

Lemma dict_get_In (d : list (K * V)) k v :
  dict_get eqb d k = Some v -> In (k, v) d.
Proof.
  induction d as [|[k' v'] d IH]; cbn; [discriminate|].
  destruct (eqb k' k) eqn:E.
  - apply eqb_spec in E. subst. intros H. injection H as ->. auto.
  - auto.
Qed.

Lemma dict_get_not_In (d : list (K * V)) k :
  ~ In k (map fst d) -> dict_get eqb d k = None.
Proof.
  induction d as [|[k' v'] d IH]; cbn; [reflexivity|].
  intros H. rewrite eqb_false by tauto. apply IH. tauto.
Qed.



Lemma dict_set_In (d : list (K * V)) k0 v0 k v :
  In (k, v) (dict_set eqb d k0 v0) -> In (k, v) d \/ (k = k0 /\ v = v0).
Proof.
  induction d as [|[k' v'] d IH]; cbn.
  - intros [e|[]]. injection e as -> ->. auto.
  - destruct (eqb k' k0) eqn:E; cbn.
    + apply eqb_spec in E. subst. intros [e|H]; [|auto].
      injection e as -> ->. auto.
    + intros [e|H]; [auto|]. destruct (IH H); auto.
Qed.

Lemma dict_set_keys (d : list (K * V)) k0 v0 k :
  In k (map fst (dict_set eqb d k0 v0)) <-> In k (map fst d) \/ k = k0.
Proof.
  induction d as [|[k' v'] d IH]; cbn.
  - intuition.
  - destruct (eqb k' k0) eqn:E; cbn.
    + apply eqb_spec in E. subst. intuition.
    + rewrite IH. intuition.
Qed.

Lemma dict_fold_In (pairs : list (K * V)) : forall acc k v,
    In (k, v) (dict_fold eqb pairs acc) -> In (k, v) acc \/ In (k, v) pairs.
Proof.
  induction pairs as [|[k0 v0] pairs IH]; cbn; intros acc k v H; [auto|].
  destruct (IH _ _ _ H) as [H'|H']; [|auto].
  destruct (dict_set_In _ _ _ _ _ H') as [|[-> ->]]; auto.
Qed.

Lemma dict_fold_keys (pairs : list (K * V)) : forall acc k,
    In k (map fst (dict_fold eqb pairs acc)) <-> In k (map fst acc) \/ In k (map fst pairs).
Proof.
  induction pairs as [|[k0 v0] pairs IH]; cbn; intros acc k; [tauto|].
  unfold dict_fold in IH. rewrite IH, dict_set_keys. intuition.
Qed.


End Dict_properties.

Lemma string_eqb_spec a b : String.eqb a b = true <-> a = b.
Proof. apply String.eqb_eq. Qed.

Lemma key_eqb_spec a b : key_eqb a b = true <-> a = b.
Proof.
  destruct a as [x|], b as [y|]; cbn; try (split; [discriminate|congruence]).
  - rewrite String.eqb_eq. split; congruence.
  - tauto.
Qed.

Lemma distinct_NoDup l : distinct l = true -> NoDup l.
Proof.
  induction l as [|x l IH]; cbn; [constructor|].
  intros H. apply andb_true_iff in H. destruct H as [Hx Hl].
  constructor; [|auto]. intros Hin. apply str_in_In in Hin.
  rewrite Hin in Hx. discriminate.
Qed.

(** ** The writers *)

Section Writer_properties.
Variable py_str : Value -> string.

Lemma combine_self_In (names : list string) k v :
  In (k, v) (combine names (map VStr names)) -> v = VStr k /\ In k names.
Proof.
  induction names as [|n names IH]; cbn; [tauto|].
  intros [e|H]; [injection e as <- <-; auto|]. destruct (IH H). auto.
Qed.

Lemma combine_self_keys (names : list string) :
  map fst (combine names (map VStr names)) = names.
Proof. induction names as [|n names IH]; cbn; [reflexivity|]. f_equal. exact IH. Qed.

(** The header row is the list of field names, as given. *)
Lemma writeheader_ok fieldnames : writeheader py_str fieldnames = Ok fieldnames.
Proof.
  unfold writeheader, writerow.
  set (d := dict_of String.eqb (combine fieldnames (map VStr fieldnames))).
  assert (Hin : forall k v, In (k, v) d -> v = VStr k /\ In k fieldnames).
  { intros k v H. apply (dict_fold_In String.eqb string_eqb_spec) in H.
    destruct H as [[]|H]. apply combine_self_In, H. }
  assert (Hkeys : forall k, In k fieldnames -> In k (map fst d)).
  { intros k H. apply (dict_fold_keys String.eqb string_eqb_spec). right.
    rewrite combine_self_keys. exact H. }
  assert (Hwrong : filter (fun k => negb (str_in k fieldnames)) (dict_keys d) = []).
  { apply filter_nil_existsb.
    destruct (existsb _ _) eqn:E; [|reflexivity].
    apply existsb_exists in E. destruct E as [k [Hk Hn]].
    unfold dict_keys in Hk. apply in_map_iff in Hk.
    destruct Hk as [[k' v] [<- Hkv]]. destruct (Hin _ _ Hkv) as [_ Hk'].
    apply str_in_In in Hk'. cbn in Hn. rewrite Hk' in Hn. discriminate. }
  rewrite Hwrong. f_equal.
  rewrite <- (map_id fieldnames) at 2. apply map_ext_in. intros k Hk.
  apply Hkeys in Hk. apply in_map_iff in Hk. destruct Hk as [[k' v] [Hfst Hkv]].
  cbn in Hfst. subst k'.
  destruct (sget d k) as [w|] eqn:E.
  - apply (dict_get_In String.eqb string_eqb_spec) in E.
    destruct (Hin _ _ E) as [-> _]. reflexivity.
  - destruct (sget_In _ _ _ Hkv) as [w Hw]. congruence.
Qed.
End Writer_properties.

Section Writers_on_the_code.
Variable py_str : Value -> string.

(** Whatever [columns] is, the header [write_models_to_csv] writes is the
    full list of the first Record's fields. *)
Lemma write_models_header cls d rest columns :
  exists rows,
    write_models_to_csv py_str (VModel cls d :: rest) columns
    = gen_app [dict_keys (cls_fields cls)] rows.
Proof.
  unfold write_models_to_csv. cbn [fields_of].
  rewrite writeheader_ok. eexists. reflexivity.
Qed.

Lemma restrict_items_ok d cs :
  (forall c, In c cs -> exists v, sget d c = Some v) ->
  exists items, restrict_items (ODict d) cs = Ok items.
Proof.
  induction cs as [|c cs IH]; intros Hall; cbn; [eauto|].
  destruct (Hall c (or_introl eq_refl)) as [v ->]. cbn.
  destruct IH as [items ->]; [|cbn; eauto].
  intros c' Hc'. apply Hall. right. exact Hc'.
Qed.

(** C9, on the code.  [write_dict_to_csv] writes nothing, for no input:
    it stops with an exception before the header.  With a first mapping
    that has the requested columns, that exception is the
    [AttributeError] of [first.keys()], [first] being by then the
    generator object that the call of [flatten_fields] returned. *)
Theorem write_dict_to_csv_never_writes models columns :
  yielded (write_dict_to_csv py_str models columns) = []
  /\ (exists e, raised (write_dict_to_csv py_str models columns) = Some e)
  /\ (forall first rest,
         models = first :: rest ->
         (forall cs c, split_columns columns = Some cs -> In c cs ->
                       exists v, sget first c = Some v) ->
         raised (write_dict_to_csv py_str models columns)
         = Some (AttributeError "keys")).
Proof.
  unfold write_dict_to_csv.
  destruct models as [|first rest].
  { cbn. repeat split; eauto. discriminate. }
  destruct (split_columns columns) as [cs|] eqn:Hcs.
  - destruct (restrict (ODict first) cs) as [o|e] eqn:Hr; cbn.
    + split; [reflexivity|]. split; [eauto|]. reflexivity.
    + split; [reflexivity|]. split; [eauto|].
      intros first' rest' Heq Hall. injection Heq as <- <-.
      exfalso. unfold restrict in Hr.
      destruct (restrict_items_ok first cs (fun c => Hall cs c eq_refl))
        as [items Hi].
      rewrite Hi in Hr. discriminate.
  - cbn. split; [reflexivity|]. split; [eauto|]. reflexivity.
Qed.
End Writers_on_the_code.

Lemma write_dict_to_csv_never_writes_witness :
  raised (write_dict_to_csv Ex.py_str
            [[("a", VDict [("b", VInt 1)]); ("c", VStr "x")]] (Some "c, a"))
  = Some (AttributeError "keys").
Proof.
  refine (proj2 (proj2 (write_dict_to_csv_never_writes Ex.py_str
            [[("a", VDict [("b", VInt 1)]); ("c", VStr "x")]] (Some "c, a")))
            _ _ eq_refl _).
  intros cs c Hcs Hc. cbn in Hcs. injection Hcs as <-.
  destruct Hc as [<-|[<-|[]]]; cbn; eauto.
Defined.

(** C3, on the code.  With fields id, name, size and the columns id and
    name, [write_models_to_csv] writes the header of all three fields, and
    rows with an empty cell under size. *)
Theorem write_models_subset_keeps_full_header :
  write_models_to_csv Ex.py_str [Ex.item1; Ex.item2] (Some ["id"; "name"])
  = mkGen [["id"; "name"; "size"]; ["1"; "a"; ""]; ["2"; "b"; ""]] None.
Proof. reflexivity. Qed.

(** ** Empty cells, read and written *)

Lemma blank_to_none_get row k :
  dict_get key_eqb (blank_to_none row) k = blanked (dict_get key_eqb row k).
Proof.
  induction row as [|[k' v] row IH]; [reflexivity|].
  unfold blank_to_none in *. cbn [map snd fst].
  destruct (is_empty_str v) eqn:E; cbn [dict_get];
    destruct (key_eqb k' k); cbn [blanked]; unfold blank_value;
    rewrite ?E; auto.
Qed.

Lemma blank_value_not_empty v : blank_value v <> VStr "".
Proof.
  unfold blank_value. destruct (is_empty_str v) eqn:E; [discriminate|].
  intros ->. discriminate.
Qed.



Lemma gen_for_all_ok {A B} (body : A -> result B) (f : A -> B) xs :
  (forall x, In x xs -> body x = Ok (f x)) ->
  gen_for body xs None = mkGen (map f xs) None.
Proof.
  induction xs as [|x xs IH]; intros H; [reflexivity|].
  cbn [gen_for]. rewrite (H x (or_introl eq_refl)), IH; [reflexivity|].
  intros y Hy. apply H. right. exact Hy.
Qed.

Section Write_rows.
Variable py_str : Value -> string.


(** An absent field is written as the empty string. *)
Lemma cell_text_absent : cell_text py_str (to_builtin VNone) = "".
Proof. reflexivity. Qed.
End Write_rows.

(** ** The reader on well-formed rows *)



Lemma reader_next_all_full header data :
  (forall r, In r data -> snd r <> []) ->
  reader_next_all header data
  = map (fun r => (fst r, reader_row header (snd r))) data.
Proof.
  induction data as [|[n row] data IH]; intros H; [reflexivity|].
  cbn [reader_next_all map fst snd].
  pose proof (H (n, row) (or_introl eq_refl)) as Hrow. cbn in Hrow.
  destruct row as [|c row]; [congruence|].
  f_equal. apply IH. intros r Hr. apply H. right. exact Hr.
Qed.






Lemma reader_next_all_rows names file : forall r,
    In r (reader_next_all names file) ->
    exists cells, snd r = reader_row names cells.
Proof.
  induction file as [|[n row] file IH]; intros r; cbn; [tauto|].
  destruct row as [|c row]; [apply IH|].
  intros [<-|H]; [cbn; eauto|]. apply (IH _ H).
Qed.


Section Roundtrip.
Variable validate : ModelClass -> sdict Value -> result Value.
Variable py_str : Value -> string.









End Roundtrip.




(** It also fails for [Group], a class of two optional scalars of which one
    has an alias: the constructor ignores the keyword [doc_count], the
    field stays absent, and the cell that held 3 is written empty. *)
Example roundtrip_loses_aliased_field :
  write_read Ex.validate_aliased Ex.py_str Ex.Group "groups.csv" Ex.group_rows
  = mkGen [["doc_count"; "value"]; [""; "readme.md"]] None
  /\ ~ roundtrip_keeps_structure Ex.validate_aliased Ex.py_str Ex.Group
                                 "groups.csv" Ex.group_rows
  /\ ~ scalar_faithful Ex.validate_aliased Ex.py_str Ex.Group.
Proof.
  split; [reflexivity|split].
  - unfold roundtrip_keeps_structure. cbn. discriminate.
  - intros H. unfold scalar_faithful in H.
    assert (Hnb : forall k, sget [("doc_count", VStr "3")] k <> Some (VStr "")).
    { intros k. unfold sget. cbn [dict_get].
      destruct (String.eqb "doc_count" k); intros E; discriminate E. }
    destruct (H [("doc_count", VStr "3")] _ Hnb eq_refl) as [d [Hd [_ Hcells]]].
    injection Hd as <-.
    specialize (Hcells "doc_count" VNone eq_refl). cbn in Hcells. discriminate.
Qed.

(** Empty cells beyond the header are not made [None]: they stay in the
    list under the key [None]. *)
Example read_dict_keeps_surplus_cells :
  read_dict_from_csv Ex.long_row None
  = mkGen [[(Some "name", VStr "a"); (Some "note", VNone);
            (None, VList [VStr ""; VStr "more"])]] None.
Proof. reflexivity. Qed.

Example write_read_header_only :
  write_read Ex.validate Ex.py_str Ex.Tag "tags.csv" Ex.header_only
  = mkGen [] (Some StopIteration).
Proof. reflexivity. Qed.

Example write_read_good_rows :
  write_read Ex.validate Ex.py_str Ex.Tag "tags.csv" Ex.good_rows
  = mkGen [["name"; "note"]; ["a"; "first"]; ["b"; ""]] None.
Proof. reflexivity. Qed.

Example read_dict_blank_cells :
  read_dict_from_csv Ex.good_rows None
  = mkGen [[(Some "name", VStr "a"); (Some "note", VStr "first")];
           [(Some "name", VStr "b"); (Some "note", VNone)]] None.
Proof. reflexivity. Qed.

(** * Further properties of the resolver *)

Lemma proper_construct_none c : proper (construct_none c).
Proof.
  constructor. intros k v Hin. apply in_map_iff in Hin.
  destruct Hin as [[k' f] [E Hin]]. cbn in E. injection E as <- <-.
  split; [apply (sget_In _ _ _ Hin)|].
  apply proper_plain. discriminate.
Qed.

Section Resolver_more.
Variable type_attr : Value -> string -> option Value.

Lemma getattr_proper obj name x :
  proper_attrs type_attr -> proper obj ->
  getattr type_attr obj name = Ok x -> proper x.
Proof.
  intros Ha Hp.
  assert (Ht : getattr_type type_attr obj name = Ok x -> proper x).
  { unfold getattr_type. destruct (type_attr obj name) as [a|] eqn:E; [|discriminate].
    intros H. injection H as <-. apply (Ha _ _ _ E). }
  unfold getattr. destruct obj as [| | | | | | |c d]; try exact Ht.
  destruct (sget d name) as [v|] eqn:Hv; [|exact Ht].
  intros H. injection H as <-.
  inversion Hp as [c' d' Hd|v' Hv']; subst.
  - apply (Hd name v). apply (dict_get_In String.eqb string_eqb_spec). exact Hv.
  - exfalso. apply (Hv' c d). reflexivity.
Qed.

Lemma descend_proper model p m :
  proper_attrs type_attr -> proper model ->
  descend type_attr model p = Ok m -> proper m.
Proof.
  intros Ha Hp. unfold descend.
  destruct (getattr type_attr model p) as [x|e] eqn:Hg; [|discriminate].
  pose proof (getattr_proper _ Ha Hp Hg) as Hpx. cbn [bind].
  destruct x; try (intros H; injection H as <-; exact Hpx).
  destruct model as [| | | | | | |c d]; try discriminate.
  cbn [fields_of bind]. destruct (sget (cls_fields c) p) as [f|]; [|discriminate].
  destruct (type_ f) as [s|model_type]; [discriminate|].
  intros H. injection H as <-. apply proper_construct_none.
Qed.

Lemma descend_all_proper ps : forall model m,
    proper_attrs type_attr -> proper model ->
    descend_all type_attr model ps = Ok m -> proper m.
Proof.
  induction ps as [|p ps IH]; cbn; intros model m Ha Hp H.
  - injection H as <-. exact Hp.
  - destruct (descend type_attr model p) as [m'|e] eqn:Hd; [|discriminate].
    cbn in H. apply (IH m' m); [exact Ha|apply (descend_proper _ Ha Hp Hd)|exact H].
Qed.

(** Where the resolver returns a value without metadata.  On an instance
    as pydantic builds it, whenever [get_field_value_and_info] returns, it
    has reached a model [m] through the path without its last name, and it
    returns no [ModelField] only when the value it returns is what the
    type of [m] has under the last name, a method of the model such as
    [dict] for one: where the type has nothing under that name, the
    [ModelField] is there. *)
Theorem resolver_metadata_absent_only_off_fields record path value field :
  proper_attrs type_attr ->
  proper record ->
  get_field_value_and_info type_attr record path = Ok (value, field) ->
  exists m,
    descend_all type_attr record (removelast path) = Ok m
    /\ (field = None -> type_attr m (last path "") = Some value)
    /\ (type_attr m (last path "") = None -> exists f, field = Some f).
Proof.
  intros Ha Hp. unfold get_field_value_and_info.
  destruct (descend_all type_attr record (removelast path)) as [m|e] eqn:Hd;
    [|discriminate].
  cbn [bind]. destruct path as [|n rest]; [discriminate|].
  pose proof (descend_all_proper _ Ha Hp Hd) as Hm.
  set (name := last (n :: rest) "").
  destruct (getattr type_attr m name) as [x|e] eqn:Hg; [|discriminate].
  cbn [bind]. destruct m as [| | | | | | |c d]; try discriminate.
  cbn [bind fields_of]. intros H. injection H as <- <-.
  exists (VModel c d). split; [reflexivity|].
  unfold getattr in Hg. destruct (sget d name) as [v|] eqn:Hv.
  - assert (Hf : exists f, sget (cls_fields c) name = Some f).
    { inversion Hm as [c' d' Hd'|v' Hv']; subst.
      - apply (Hd' name v). apply (dict_get_In String.eqb string_eqb_spec). exact Hv.
      - exfalso. apply (Hv' c d). reflexivity. }
    destruct Hf as [f Hf]. rewrite Hf. split; [discriminate|eauto].
  - unfold getattr_type in Hg.
    destruct (type_attr (VModel c d) name) as [a|]; [|discriminate].
    injection Hg as ->. split; [reflexivity|discriminate].
Qed.

Lemma get_field_value_and_info_missing c d n rest :
  sget d n = None ->
  type_attr (VModel c d) n = None ->
  get_field_value_and_info type_attr (VModel c d) (n :: rest)
  = Raise (AttributeError n).
Proof.
  intros Hn Ht. destruct rest as [|n' rest].
  - unfold get_field_value_and_info. cbn. unfold getattr_type.
    rewrite Hn, Ht. reflexivity.
  - rewrite get_field_value_and_info_cons by discriminate.
    unfold descend, getattr, getattr_type. rewrite Hn, Ht. reflexivity.
Qed.

Lemma resolver_unknown_name_shaped pre : forall schema record c n rest,
    shaped schema record -> proper record ->
    spec_class schema pre = Some c ->
    sget (cls_fields c) n = None ->
    (forall d, type_attr (VModel c d) n = None) ->
    get_field_value_and_info type_attr record (pre ++ n :: rest)
    = Raise (AttributeError n).
Proof.
  induction pre as [|m pre IH]; intros S R c n rest Hsh Hp Hc Hn Ht.
  - cbn in Hc. injection Hc as <-. inversion Hsh as [c' d Hd]; subst.
    apply get_field_value_and_info_missing; [|apply Ht].
    destruct (sget d n) as [x|] eqn:Hx; [|reflexivity].
    inversion Hp as [c' d' Hd'|v Hv]; subst.
    + apply (dict_get_In String.eqb string_eqb_spec) in Hx.
      destruct (Hd' _ _ Hx) as [[f Hf] _]. congruence.
    + exfalso. apply (Hv S d). reflexivity.
  - cbn [spec_class] in Hc.
    destruct (sget (cls_fields S) m) as [f|] eqn:Hf; [|discriminate].
    destruct (singular_model f) as [child|] eqn:Hs; [|discriminate].
    destruct (singular_model_type _ Hs) as [Htype _].
    inversion Hsh as [c' d Hd]; subst.
    pose proof (dict_get_In String.eqb string_eqb_spec _ _ Hf) as Hin.
    destruct (Hd m f Hin) as [x [Hx Hchild]].
    change ((m :: pre) ++ n :: rest) with (m :: (pre ++ n :: rest)).
    rewrite get_field_value_and_info_cons by (destruct pre; discriminate).
    assert (Hpx : proper x).
    { inversion Hp as [c' d' Hd'|v Hv]; subst.
      - apply (Hd' m x). apply (dict_get_In String.eqb string_eqb_spec). exact Hx.
      - exfalso. apply (Hv S d). reflexivity. }
    unfold descend, getattr. rewrite Hx. cbn [bind].
    destruct Hchild as [->|Hchild].
    + cbn. rewrite Hf, Htype. cbn [bind].
      apply (IH child _ c n rest); auto using shaped_construct_none, proper_construct_none.
    + specialize (Hchild child Hs). inversion Hchild; subst. cbn [bind].
      apply (IH child _ c n rest); auto.
Qed.

(** A name that is no attribute at all fails loudly.  On a conforming
    instance, a path that follows singular nested fields and then gives a
    name that is neither a field of the class it has reached nor anything
    else the instances of that class have (a method, a class attribute)
    makes the resolver raise [AttributeError] for that name, whatever
    follows it and whether the nested Records on the way are there or
    absent. *)
Theorem resolver_unknown_name schema record pre c n rest :
  conforms schema record ->
  proper record ->
  spec_class schema pre = Some c ->
  sget (cls_fields c) n = None ->
  (forall d, type_attr (VModel c d) n = None) ->
  get_field_value_and_info type_attr record (pre ++ n :: rest)
  = Raise (AttributeError n).
Proof.
  intros Hc. apply resolver_unknown_name_shaped. apply conforms_shaped, Hc.
Qed.
End Resolver_more.

Lemma proper_lonely : proper Ex.lonely.
Proof.
  constructor. intros k v Hin. cbn in Hin.
  destruct Hin as [e|[e|[e|[e|[]]]]]; injection e as <- <-;
    (split; [eexists; reflexivity|apply proper_plain; discriminate]).
Qed.

Lemma proper_attrs_example : proper_attrs Ex.type_attr.
Proof.
  intros obj name attr H. apply proper_plain. intros c d ->.
  destruct obj; cbn in H; try discriminate;
    match type of H with (if ?b then _ else _) = _ => destruct b end;
    discriminate.
Qed.

Lemma resolver_metadata_absent_only_off_fields_witness :
  exists m,
    descend_all Ex.type_attr Ex.lonely (removelast ["dict"]) = Ok m
    /\ (@None ModelField = None ->
        Ex.type_attr m (last ["dict"] "") = Some (VObj "method" "dict"))
    /\ (Ex.type_attr m (last ["dict"] "") = None ->
        exists f, @None ModelField = Some f).
Proof.
  exact (@resolver_metadata_absent_only_off_fields Ex.type_attr Ex.lonely ["dict"]
           (VObj "method" "dict") None proper_attrs_example proper_lonely eq_refl).
Defined.

(** A name that is a method of the model is no error: the resolver returns
    the bound method, without metadata. *)
Example resolver_returns_a_method :
  get_field_value_and_info Ex.type_attr Ex.lonely ["dict"]
  = Ok (VObj "method" "dict", None).
Proof. reflexivity. Qed.

Lemma resolver_unknown_name_witness :
  get_field_value_and_info Ex.type_attr Ex.lonely (["child"] ++ "nope" :: ["x"])
  = Raise (AttributeError "nope").
Proof.
  exact (@resolver_unknown_name Ex.type_attr Ex.Family Ex.lonely ["child"]
           Ex.Child "nope" ["x"]
           conforms_lonely proper_lonely eq_refl eq_refl (fun _ => eq_refl)).
Defined.

(** Below a name that is a method the resolver goes on, and the error is
    for the name after it. *)
Example resolver_descends_into_a_method :
  get_field_value_and_info Ex.type_attr Ex.lonely ["child"; "copy"; "x"]
  = Raise (AttributeError "x").
Proof. reflexivity. Qed.

(** * Further properties of the Schema Walker *)

Lemma dotted_inj n a b : PyStr.dotted n a = PyStr.dotted n b -> a = b.
Proof.
  unfold PyStr.dotted. induction n as [|c n IH]; cbn; intros H.
  - injection H as ->. reflexivity.
  - injection H as H. auto.
Qed.

(** The first component of a flattened name. *)
Lemma field_paths_head n f name :
  PyStr.contains PyStr.dot n = false ->
  In name (field_paths n f) ->
  hd "" (PyStr.split PyStr.dot name) = n.
Proof.
  intros Hn. unfold field_paths. destruct (singular_model f) as [c|].
  - intros H. apply in_map_iff in H. destruct H as [x [<- _]].
    rewrite (split_dotted n x Hn). reflexivity.
  - intros [<-|[]]. rewrite (split_dot_free n Hn). reflexivity.
Qed.

Lemma NoDup_map_inj {A B} (f : A -> B) l :
  (forall a b, f a = f b -> a = b) -> NoDup l -> NoDup (map f l).
Proof.
  intros Hinj. induction 1 as [|x l Hx Hl IH]; cbn; constructor; [|exact IH].
  intros H. apply in_map_iff in H. destruct H as [y [E Hy]].
  apply Hinj in E. subst. contradiction.
Qed.

(** [flatten_fields] never yields a path twice: the dotted names of a class
    tree as Python builds it are distinct, and so are the names of the
    class itself, which [get_fields] yields when it does not flatten. *)
Theorem flatten_fields_NoDup : forall schema flat,
    wf_class schema = true -> NoDup (all_fields schema flat).
Proof.
  intros schema flat Hwf. destruct flat; cbn [all_fields].
  2:{ destruct schema as [name enc fields].
      apply distinct_NoDup, (wf_class_fields _ _ _ Hwf). }
  revert Hwf.
  induction schema as [name enc fields IH] using ModelClass_ind. intros Hwf.
  destruct (wf_class_fields _ _ _ Hwf) as [Hd Hf].
  rewrite flatten_fields_unfold.
  apply distinct_NoDup in Hd. unfold dict_keys in Hd.
  clear Hwf. induction fields as [|[n f] fs IHfs]; cbn; [constructor|].
  inversion Hd as [|? ? Hn Hfs]; subst.
  destruct (Hf n f (or_introl eq_refl)) as [Hdot Hchild].
  apply NoDup_app.
  - unfold field_paths. destruct (singular_model f) as [c|] eqn:Hs.
    + destruct (singular_model_type _ Hs) as [Ht _].
      apply NoDup_map_inj; [apply dotted_inj|].
      apply (IH n f c (or_introl eq_refl) Ht). apply (Hchild c Ht).
    + repeat constructor. intros [].
  - apply IHfs.
    + intros n' f' c' Hin. apply (IH n' f' c'). right. exact Hin.
    + exact Hfs.
    + intros n' f' Hin. apply Hf. right. exact Hin.
  - intros path H1 H2. apply in_flat_map in H2.
    destruct H2 as [[n' f'] [Hin' Hpath]]. cbn [fst snd] in Hpath.
    destruct (Hf n' f' (or_intror Hin')) as [Hdot' _].
    apply (@field_paths_head n f path Hdot) in H1.
    apply (@field_paths_head n' f' path Hdot') in Hpath.
    apply Hn. apply in_map_iff. exists (n', f'). split; [|exact Hin'].
    cbn. congruence.
Qed.

Lemma flatten_fields_NoDup_witness :
  NoDup (all_fields Ex.Family true).
Proof.
  exact (@flatten_fields_NoDup Ex.Family true eq_refl).
Defined.

Lemma prefix_empty s : String.prefix "" s = true.
Proof. destruct s; reflexivity. Qed.

Lemma filter_all {A} (p : A -> bool) l :
  (forall x, p x = true) -> filter p l = l.
Proof.
  intros H. induction l as [|a l IH]; cbn; [reflexivity|].
  rewrite H, IH. reflexivity.
Qed.

(** The lone wildcard selects every field, like no include list at all;
    but on a model without fields it matches nothing, and [get_fields]
    raises where it yields nothing without an include list. *)
Theorem get_fields_lone_wildcard model flat :
  (all_fields model flat <> [] ->
   get_fields model (Some ["*"]) flat = get_fields model None flat)
  /\ (all_fields model flat = [] ->
      get_fields model None flat = mkGen [] None
      /\ get_fields model (Some ["*"]) flat
         = mkGen [] (Some (ValueError
                             ("'*' is not a valid field path for model: "
                                ++ cls_name model) []))).
Proof.
  unfold get_fields. fold (all_fields model flat).
  destruct (all_fields model flat) as [|f fields] eqn:E.
  - split; [congruence|]. intros _. split; reflexivity.
  - split; [|discriminate]. intros _.
    cbn [get_fields_include]. unfold include_found, include_yield.
    cbn [PyStr.contains PyStr.star PyStr.remove Ascii.eqb Bool.eqb orb existsb].
    unfold PyStr.startswith. rewrite prefix_empty. cbn [orb].
    rewrite (filter_all (fun f0 => String.prefix "" f0) (f :: fields) prefix_empty).
    unfold gen_app, gen_of_list. cbn. rewrite app_nil_r. reflexivity.
Qed.

Lemma get_fields_lone_wildcard_witness :
  get_fields Ex.FileEvent (Some ["*"]) true = get_fields Ex.FileEvent None true.
Proof.
  refine (proj1 (get_fields_lone_wildcard Ex.FileEvent true) _). discriminate.
Defined.

Lemma flat_map_exact fields l :
  (forall x, In x l -> PyStr.contains PyStr.star x = false) ->
  flat_map (spec_entry_yield fields) l = l.
Proof.
  induction l as [|x xs IH]; intros H; [reflexivity|].
  cbn [flat_map]. unfold spec_entry_yield at 1.
  rewrite (H x (or_introl eq_refl)). cbn [app]. f_equal.
  apply IH. intros y Hy. apply H. right. exact Hy.
Qed.

(** With an include list of plain field names, [get_fields] yields the
    list as it is given: in the caller's order, a name as often as it is
    listed, whatever the order of the fields in the class. *)
Theorem get_fields_exact_names model include flat :
  include <> [] ->
  (forall i, In i include ->
             PyStr.contains PyStr.star i = false /\ In i (all_fields model flat)) ->
  get_fields model (Some include) flat = mkGen include None.
Proof.
  intros Hne Hall. destruct include as [|i rest]; [congruence|].
  rewrite get_fields_some.
  rewrite get_fields_include_all_found.
  - f_equal. apply flat_map_exact. intros x Hx. apply Hall, Hx.
  - apply forallb_forall. intros x Hx. destruct (Hall x Hx) as [Hs Hin].
    unfold include_found. rewrite Hs. apply str_in_In, Hin.
Qed.

Lemma get_fields_exact_names_witness :
  get_fields Ex.FileEvent (Some ["file.size"; "event.id"; "file.size"]) true
  = mkGen ["file.size"; "event.id"; "file.size"] None.
Proof.
  refine (@get_fields_exact_names Ex.FileEvent
            ["file.size"; "event.id"; "file.size"] true _ _).
  - discriminate.
  - intros i [<-|[<-|[<-|[]]]]; (split; [reflexivity|cbn; auto]).
Defined.

(** * Further properties of the formatted iteration *)

Lemma gen_for_names {A B} (body : A -> result B) (name : B -> A) xs tail :
  (forall x b, body x = Ok b -> name b = x) ->
  exists rest,
    xs = map name (yielded (gen_for body xs tail)) ++ rest
    /\ (raised (gen_for body xs tail) = None -> rest = [] /\ tail = None).
Proof.
  intros Hname. induction xs as [|x xs IH]; cbn [gen_for].
  - exists []. cbn. auto.
  - destruct (body x) as [b|e] eqn:Hb.
    + destruct IH as [rest [Hxs Hnone]]. exists rest. cbn.
      rewrite (Hname x b Hb). split; [f_equal; exact Hxs|exact Hnone].
    + exists (x :: xs). cbn. split; [reflexivity|discriminate].
Qed.

Lemma gen_for_total {A B} (body : A -> result B) (name : B -> A) xs tail :
  (forall x, In x xs -> exists b, body x = Ok b /\ name b = x) ->
  map name (yielded (gen_for body xs tail)) = xs
  /\ raised (gen_for body xs tail) = tail.
Proof.
  induction xs as [|x xs IH]; intros H; cbn [gen_for]; [auto|].
  destruct (H x (or_introl eq_refl)) as [b [-> Hb]].
  destruct IH as [Hy Hr]; [intros y Hy; apply H; right; exact Hy|].
  cbn. rewrite Hb, Hy. auto.
Qed.

Lemma spec_field_hints render : forall p schema f,
    spec_field schema p = Some f ->
    hints_ok render schema = true ->
    hint_ok (extra_get f render) = true.
Proof.
  induction p as [|n rest IH]; intros [name enc fields] f Hf Hh; [discriminate|].
  cbn [hints_ok] in Hh. rewrite forallb_forall in Hh.
  destruct rest as [|n' rest].
  - cbn [spec_field cls_fields] in Hf.
    apply (dict_get_In String.eqb string_eqb_spec) in Hf.
    specialize (Hh _ Hf). cbn [snd] in Hh. apply andb_true_iff in Hh. tauto.
  - change (spec_field (mkClass name enc fields) (n :: n' :: rest))
      with (match sget fields n with
            | Some f0 =>
                match type_ f0 with
                | TModel child => spec_field child (n' :: rest)
                | TOther _ => None
                end
            | None => None
            end) in Hf.
    revert Hf.
    destruct (sget fields n) as [f0|] eqn:Hn; [|discriminate].
    destruct (type_ f0) as [s|child] eqn:Ht; [discriminate|]. intros Hf.
    apply (dict_get_In String.eqb string_eqb_spec) in Hn.
    specialize (Hh _ Hn). cbn [snd] in Hh. rewrite Ht in Hh.
    apply andb_true_iff in Hh. apply (IH child f Hf). tauto.
Qed.

Section Formatted_more.
Variable type_attr : Value -> string -> option Value.
Variable call : string -> Value -> result Value.

Lemma format_field_name cls d render name b :
  format_field type_attr call cls d render name = Ok b -> fst b = name.
Proof.
  unfold format_field.
  destruct (get_field_value_and_info type_attr _ _) as [[value field]|e]; [|discriminate].
  cbn [bind fst snd].
  assert (H : forall r, (v' <- r ;; Ok (name, v')) = Ok b -> fst b = name).
  { intros [v|e]; cbn; [|discriminate]. intros E. injection E as <-. reflexivity. }
  destruct (render_truthy render && extra_truthy _); [apply H|].
  destruct (sget _ _); [apply H|]. intros E. injection E as <-. reflexivity.
Qed.

(** Formatted iteration follows the Schema Walker: the names of the pairs
    it yields are the names [get_fields] yields, in that order and one pair
    per name, up to the point where it stops; and when it ends without an
    error, no name is left out and [get_fields] has ended without an error
    too. *)
Theorem iter_model_formatted_names cls d include flat render :
  exists rest,
    yielded (get_fields cls include flat)
    = map fst (yielded (iter_model_formatted type_attr call cls d include flat render)) ++ rest
    /\ (raised (iter_model_formatted type_attr call cls d include flat render) = None ->
        rest = [] /\ raised (get_fields cls include flat) = None).
Proof.
  unfold iter_model_formatted. apply gen_for_names.
  intros x b. apply format_field_name.
Qed.

(** When nothing can go wrong, formatted iteration is complete.  For a
    class tree as Python builds it whose entries under the requested hint
    name are callables (or nothing true), a conforming instance, and
    callables that return, [iter_model_formatted] yields exactly one pair
    for every name of the Schema Walker, in its order, and ends as
    [get_fields] ends: with the [ValueError] of an unmatched include entry,
    or without an error. *)
Theorem iter_model_formatted_complete cls d include flat render :
  wf_class cls = true ->
  conforms cls (VModel cls d) ->
  hints_ok render cls = true ->
  (forall fn v, exists v', call fn v = Ok v') ->
  map fst (yielded (iter_model_formatted type_attr call cls d include flat render))
  = yielded (get_fields cls include flat)
  /\ raised (iter_model_formatted type_attr call cls d include flat render)
     = raised (get_fields cls include flat).
Proof.
  intros Hwf Hc Hh Hcall. unfold iter_model_formatted. apply gen_for_total.
  intros name Hin. apply get_fields_incl in Hin.
  apply (all_fields_field_path _ _ _ Hwf) in Hin.
  destruct (resolve_field_path type_attr Hin Hwf (conforms_shaped Hc))
    as [value [f (Hres & Hf & _)]].
  pose proof (spec_field_hints render _ _ Hf Hh) as Hok.
  unfold format_field. rewrite Hres. cbn [bind fst snd].
  assert (H : forall fn, exists b, (v' <- call fn value ;; Ok (name, v')) = Ok b
                                   /\ fst b = name).
  { intros fn. destruct (Hcall fn value) as [v' ->]. cbn. eauto. }
  destruct (render_truthy render && extra_truthy (extra_get f render)) eqn:E.
  - apply andb_true_iff in E. destruct E as [_ E].
    destruct (extra_get f render); cbn in Hok, E; try congruence;
      try (rewrite E in Hok; discriminate).
    apply H.
  - destruct (sget (cls_json_encoders cls) (type_name value)); [apply H|eauto].
Qed.
End Formatted_more.

Lemma conforms_alert : conforms Ex.Alert (VModel Ex.Alert Ex.alert).
Proof.
  constructor. intros n f Hin. cbn in Hin.
  destruct Hin as [e|[e|[e|[]]]]; injection e as <- <-;
    eexists; (split; [reflexivity|]);
    (apply conforms_plain; [reflexivity|discriminate]).
Qed.

Lemma iter_model_formatted_complete_witness :
  map fst (yielded (iter_model_formatted Ex.type_attr
                      (fun _ v => Ok v) Ex.Alert Ex.alert None true (Some "table")))
  = yielded (get_fields Ex.Alert None true)
  /\ raised (iter_model_formatted Ex.type_attr
               (fun _ v => Ok v) Ex.Alert Ex.alert None true (Some "table"))
     = raised (get_fields Ex.Alert None true).
Proof.
  refine (@iter_model_formatted_complete Ex.type_attr (fun _ v => Ok v) Ex.Alert Ex.alert
            None true (Some "table") eq_refl conforms_alert eq_refl _).
  intros fn v. eauto.
Defined.

(** * Further properties of the readers *)

Lemma kwargs_None_key row : In None (map fst row) -> kwargs row = None.
Proof.
  induction row as [|[[k|] v] row IH]; cbn; [tauto| |reflexivity].
  intros [H|H]; [discriminate|]. rewrite (IH H). reflexivity.
Qed.

Lemma blank_to_none_keys row : map fst (blank_to_none row) = map fst row.
Proof.
  unfold blank_to_none. rewrite map_map. apply map_ext.
  intros [k v]. cbn. destruct (is_empty_str v); reflexivity.
Qed.

Lemma reader_row_surplus names cells :
  List.length names < List.length cells ->
  In None (map fst (reader_row names cells)).
Proof.
  intros H. unfold reader_row.
  apply Nat.ltb_lt in H. rewrite H.
  apply (dict_set_keys key_eqb key_eqb_spec). right. reflexivity.
Qed.

Lemma reader_next_all_app names pre rest :
  (forall r, In r pre -> snd r <> []) ->
  reader_next_all names (pre ++ rest)
  = reader_next_all names pre ++ reader_next_all names rest.
Proof.
  induction pre as [|[n row] pre IH]; intros H; [reflexivity|].
  pose proof (H (n, row) (or_introl eq_refl)) as Hrow. cbn in Hrow.
  cbn [app reader_next_all]. destruct row as [|c row]; [congruence|].
  cbn [app]. f_equal. apply IH. intros r Hr. apply H. right. exact Hr.
Qed.

Section Readers_more.
Variable validate : ModelClass -> sdict Value -> result Value.

Lemma read_models_loop_crash model path pre line_num row post e : forall error,
    only_validation_errors validate model pre ->
    row_outcome validate model row = Raise e ->
    (forall detail, e <> ValidationError detail) ->
    read_models_loop validate model path (pre ++ (line_num, row) :: post) error
    = mkGen (valid_records validate model pre) (Some e).
Proof.
  induction pre as [|[ln r] pre IH]; intros error Hok Hrow He.
  - cbn [app read_models_loop]. unfold row_outcome in Hrow. rewrite Hrow.
    destruct e; try reflexivity. elim (He detail). reflexivity.
  - assert (Hpre : only_validation_errors validate model pre).
    { intros x Hx. apply Hok. right. exact Hx. }
    specialize (Hok (ln, r) (or_introl eq_refl)). cbn [snd] in Hok.
    change (valid_records validate model ((ln, r) :: pre))
      with ((match row_outcome validate model r with
             | Ok m => [m]
             | Raise _ => []
             end) ++ valid_records validate model pre).
    cbn [app read_models_loop]. unfold row_outcome in Hok |- *.
    destruct (new_model validate model (blank_to_none r)) as [m|e'].
    + rewrite (IH error Hpre Hrow He). reflexivity.
    + destruct e'; try contradiction. rewrite (IH _ Hpre Hrow He). reflexivity.
Qed.

(** A row with more cells than the header ends the ingest at once: the
    reader files the surplus cells under the key [None], the call of the
    model with the row as keyword arguments raises [TypeError], which is
    no validation error, and [read_models_from_csv] lets it through.  The
    rows behind are not read, and the validation failures met before are
    not reported. *)
Theorem read_models_surplus_cells model path l0 header pre line_num cells post :
  (forall r, In r pre -> snd r <> []) ->
  List.length header < List.length cells ->
  only_validation_errors validate model (DictReader ((l0, header) :: pre) None) ->
  read_models_from_csv validate model path
                       ((l0, header) :: pre ++ (line_num, cells) :: post)
  = mkGen (valid_records validate model (DictReader ((l0, header) :: pre) None))
          (Some (TypeError "keywords must be strings")).
Proof.
  intros Hpre Hlen Hok. unfold read_models_from_csv.
  cbn [DictReader reader_open] in *.
  rewrite (reader_next_all_app header pre ((line_num, cells) :: post) Hpre).
  assert (Hcells : cells <> []) by (destruct cells; [cbn in Hlen; lia|discriminate]).
  cbn [reader_next_all]. destruct cells as [|c cells]; [congruence|].
  apply read_models_loop_crash; [exact Hok| |discriminate].
  unfold row_outcome, new_model. rewrite kwargs_None_key; [reflexivity|].
  rewrite blank_to_none_keys. apply reader_row_surplus, Hlen.
Qed.
End Readers_more.

Lemma read_models_surplus_cells_witness :
  read_models_from_csv Ex.validate Ex.Tag "tags.csv"
    ((1, ["name"; "note"])
       :: [(2, ["a"; "first"]); (3, [""; "second"])]
       ++ (4, ["c"; "third"; "more"]) :: [(5, ["d"; "fourth"])])
  = mkGen [VModel Ex.Tag [("name", VStr "a"); ("note", VStr "first")]]
          (Some (TypeError "keywords must be strings")).
Proof.
  refine (@read_models_surplus_cells Ex.validate Ex.Tag "tags.csv" 1
            ["name"; "note"] [(2, ["a"; "first"]); (3, [""; "second"])]
            4 ["c"; "third"; "more"] [(5, ["d"; "fourth"])] _ _ _).
  - intros r [<-|[<-|[]]]; discriminate.
  - cbn. lia.
  - intros r Hr. cbn in Hr. destruct Hr as [<-|[<-|[]]]; exact I.
Defined.

Lemma dict_get_mem {K V} (eqb : K -> K -> bool)
      (eqb_spec : forall a b, eqb a b = true <-> a = b) (d : list (K * V)) k :
  In k (map fst d) -> exists v, dict_get eqb d k = Some v.
Proof.
  induction d as [|[k' v'] d IH]; cbn; [tauto|].
  intros H. destruct (eqb k' k) eqn:E; [eauto|].
  destruct H as [->|H]; [|auto].
  assert (eqb k k = true) by (apply eqb_spec; reflexivity). congruence.
Qed.

Lemma combine_keys_firstn {A B} (ks : list A) (vs : list B) :
  map fst (combine ks vs) = firstn (List.length vs) ks.
Proof.
  revert vs. induction ks as [|k ks IH]; intros [|v vs]; cbn; try reflexivity.
  f_equal. apply IH.
Qed.

(** Every name of the header is a key of the row the reader makes. *)
Lemma reader_row_keys names cells k :
  In k names -> In (Some k) (map fst (reader_row names cells)).
Proof.
  intros Hk. unfold reader_row.
  set (d := dict_of key_eqb (combine (map Some names) (map VStr cells))).
  assert (Hd : forall x, In x (firstn (List.length cells) names) ->
                         In (Some x) (map fst d)).
  { intros x Hx. apply (dict_fold_keys key_eqb key_eqb_spec). right.
    rewrite combine_keys_firstn, length_map, firstn_map. apply in_map, Hx. }
  rewrite <- (firstn_skipn (List.length cells) names) in Hk.
  apply in_app_iff in Hk.
  destruct (Nat.ltb (List.length names) (List.length cells)) eqn:E1.
  - apply (dict_set_keys key_eqb key_eqb_spec). left.
    destruct Hk as [Hk|Hk]; [apply Hd, Hk|].
    apply Nat.ltb_lt in E1. rewrite skipn_all2 in Hk by lia. destruct Hk.
  - destruct (Nat.ltb (List.length cells) (List.length names)) eqn:E2.
    + apply (dict_fold_keys key_eqb key_eqb_spec).
      destruct Hk as [Hk|Hk]; [left; apply Hd, Hk|right].
      rewrite map_map. cbn. apply in_map, Hk.
    + destruct Hk as [Hk|Hk]; [apply Hd, Hk|].
      apply Nat.ltb_ge in E2. rewrite skipn_all2 in Hk by lia. destruct Hk.
Qed.

(** Every row [read_dict_from_csv] yields has every name of the header as a
    key, whether the line was short, long or of the right length, and holds
    an empty string under none of them: the value is a non-empty cell, or
    [None]. *)
Theorem read_dict_rows_cover_header file field_names names row k :
  fst (reader_open file field_names) = Some names ->
  In row (yielded (read_dict_from_csv file field_names)) ->
  In k names ->
  exists v, dict_get key_eqb row (Some k) = Some v /\ v <> VStr "".
Proof.
  intros Hnames Hrow Hk.
  cbn [read_dict_from_csv gen_of_list yielded] in Hrow.
  apply in_map_iff in Hrow. destruct Hrow as [r [<- Hr]].
  unfold DictReader in Hr.
  destruct (reader_open file field_names) as [[names'|] rest]; [|destruct Hr].
  cbn in Hnames. injection Hnames as ->.
  destruct (reader_next_all_rows _ _ _ Hr) as [cells ->].
  destruct (dict_get_mem key_eqb key_eqb_spec _ _ (@reader_row_keys names cells k Hk))
    as [v Hv].
  exists (blank_value v). rewrite blank_to_none_get, Hv.
  split; [reflexivity|apply blank_value_not_empty].
Qed.

Lemma read_dict_rows_cover_header_witness :
  exists v, dict_get key_eqb [(Some "name", VStr "b"); (Some "note", VNone)]
                     (Some "note") = Some v
            /\ v <> VStr "".
Proof.
  refine (@read_dict_rows_cover_header
            [(1, ["name"; "note"]); (2, ["a"; "first"]); (3, ["b"])] None
            ["name"; "note"] _ "note" eq_refl _ _).
  - cbn. right. left. reflexivity.
  - cbn. auto.
Defined.

Section Ingest_accounting.
Variable validate : ModelClass -> sdict Value -> result Value.

Lemma failures_In model rows ln detail :
  In (ln, detail) (failures validate model rows) ->
  exists row, In (ln, row) rows
              /\ row_outcome validate model row = Raise (ValidationError detail).
Proof.
  unfold failures. rewrite in_flat_map. intros [[n row] [Hin H]].
  cbn [fst snd] in H.
  destruct (row_outcome validate model row) as [m|e] eqn:E; [destruct H|].
  destruct e; try (destruct H; fail).
  destruct H as [H|[]]. injection H as <- <-. eauto.
Qed.

Lemma accounting model rows :
  only_validation_errors validate model rows ->
  List.length (valid_records validate model rows)
  + List.length (failures validate model rows) = List.length rows.
Proof.
  induction rows as [|r rows IH]; intros Hok; [reflexivity|].
  assert (Hrest : only_validation_errors validate model rows).
  { intros x Hx. apply Hok. right. exact Hx. }
  specialize (Hok r (or_introl eq_refl)).
  unfold valid_records, failures in *. cbn [flat_map].
  rewrite !length_app.
  destruct (row_outcome validate model (snd r)) as [m|e].
  - cbn. rewrite (IH Hrest). reflexivity.
  - destruct e; try contradiction. cbn. rewrite <- (IH Hrest). lia.
Qed.

(** No row is lost: when no row makes the constructor raise anything but
    a validation error, every row the reader produces is either yielded
    as a Record or counted as a failure, and [read_models_from_csv] ends
    without an error exactly when no row failed. *)
Theorem read_models_accounting model path file :
  only_validation_errors validate model (DictReader file None) ->
  List.length (yielded (read_models_from_csv validate model path file))
  + List.length (failures validate model (DictReader file None))
  = List.length (DictReader file None)
  /\ (raised (read_models_from_csv validate model path file) = None
      <-> failures validate model (DictReader file None) = []).
Proof.
  intros Hok. unfold read_models_from_csv.
  rewrite (@read_models_loop_spec validate model path _ None Hok).
  cbn [yielded raised]. split; [apply accounting, Hok|].
  destruct (failures validate model (DictReader file None)) as [|f fs] eqn:E.
  - cbn. tauto.
  - destruct (rev (f :: fs)) as [|l ls] eqn:Er.
    + apply (f_equal (@List.length _)) in Er. rewrite length_rev in Er. discriminate.
    + split; discriminate.
Qed.

Lemma in_combine_seq {A} (l : list A) : forall s a b,
    In (a, b) (combine (seq s (List.length l)) l) ->
    s <= a /\ nth_error l (a - s) = Some b.
Proof.
  induction l as [|x l IH]; intros s a b; cbn; [tauto|].
  intros [H|H].
  - injection H as <- <-. rewrite Nat.sub_diag. split; [lia|reflexivity].
  - destruct (IH _ _ _ H) as [Hle Hn]. split; [lia|].
    replace (a - s) with (S (a - S s)) by lia. exact Hn.
Qed.

(** The row number of the aggregate error is a line number: for a text
    without blank lines, whose header is line 1, the error raised carries
    the number k + 1 for the k-th data row (counting from 1), the detail of
    that row's validation failure, and both again in its message. *)
Theorem read_models_row_number model path header rows e :
  (forall cells, In cells rows -> cells <> []) ->
  only_validation_errors validate model (DictReader (numbered (header :: rows)) None) ->
  raised (read_models_from_csv validate model path (numbered (header :: rows)))
  = Some e ->
  exists k cells detail,
    nth_error rows k = Some cells
    /\ row_outcome validate model (reader_row header cells)
       = Raise (ValidationError detail)
    /\ e = CSVValidationError
             ("Bad data in row " ++ PyStr.of_nat (k + 2) ++ " of " ++ path
                ++ String (ascii_of_nat 10) detail)
             (k + 2).
Proof.
  intros Hrows Hok. unfold read_models_from_csv.
  rewrite (@read_models_loop_spec validate model path _ None Hok).
  cbn [raised].
  set (fs := failures validate model (DictReader (numbered (header :: rows)) None)).
  destruct (rev fs) as [|[ln detail] ls] eqn:Er; [discriminate|].
  intros H. injection H as <-.
  assert (Hin : In (ln, detail) fs).
  { apply in_rev. rewrite Er. left. reflexivity. }
  apply failures_In in Hin. destruct Hin as [row [Hin Hout]].
  unfold numbered in Hin. cbn [List.length seq combine DictReader reader_open] in Hin.
  rewrite reader_next_all_full in Hin.
  2:{ intros [n0 r] Hr. apply in_combine_r in Hr. apply Hrows, Hr. }
  apply in_map_iff in Hin. destruct Hin as [[n cells] [E Hin]].
  cbn [fst snd] in E. injection E as -> <-.
  apply in_combine_seq in Hin. destruct Hin as [Hle Hnth].
  exists (ln - 2), cells, detail.
  replace (ln - 2 + 2) with ln by lia. cbn [aggregate_error fst snd].
  repeat split; assumption.
Qed.
End Ingest_accounting.

Lemma read_models_row_number_witness :
  exists k cells detail,
    nth_error [["a"; "first"]; [""; "second"]; ["c"; ""]] k = Some cells
    /\ row_outcome Ex.validate Ex.Tag (reader_row ["name"; "note"] cells)
       = Raise (ValidationError detail)
    /\ CSVValidationError
         ("Bad data in row 3 of tags.csv"
            ++ String (ascii_of_nat 10) "name: none is not an allowed value") 3
       = CSVValidationError
           ("Bad data in row " ++ PyStr.of_nat (k + 2) ++ " of " ++ "tags.csv"
              ++ String (ascii_of_nat 10) detail)
           (k + 2).
Proof.
  refine (@read_models_row_number Ex.validate Ex.Tag "tags.csv" ["name"; "note"]
            [["a"; "first"]; [""; "second"]; ["c"; ""]] _ _ _ eq_refl).
  - intros cells [<-|[<-|[<-|[]]]]; discriminate.
  - intros r Hr. cbn in Hr. destruct Hr as [<-|[<-|[<-|[]]]]; exact I.
Defined.

Lemma read_models_accounting_witness :
  List.length (yielded (read_models_from_csv Ex.validate Ex.Tag "tags.csv"
                                             Ex.two_bad_rows))
  + List.length (failures Ex.validate Ex.Tag (DictReader Ex.two_bad_rows None))
  = List.length (DictReader Ex.two_bad_rows None)
  /\ (raised (read_models_from_csv Ex.validate Ex.Tag "tags.csv" Ex.two_bad_rows)
      = None
      <-> failures Ex.validate Ex.Tag (DictReader Ex.two_bad_rows None) = []).
Proof.
  refine (@read_models_accounting Ex.validate Ex.Tag "tags.csv" Ex.two_bad_rows _).
  intros r Hr. cbn in Hr. destruct Hr as [<-|[<-|[<-|[]]]]; exact I.
Defined.

(** * Further properties of the writers *)

Lemma sget_filter_map {V W} (p : string -> bool) (g : V -> W) (d : sdict V) k v :
  NoDup (map fst d) -> In (k, v) d ->
  sget (map (fun kv => (fst kv, g (snd kv))) (filter (fun kv => p (fst kv)) d)) k
  = if p k then Some (g v) else None.
Proof.
  unfold sget. induction d as [|[k' v'] d IH]; cbn [map filter fst snd]; [intros _ []|].
  intros Hnd Hin. inversion Hnd as [|? ? Hk Hd]; subst.
  assert (Hnot : forall q, ~ In k' (map fst d) ->
            dict_get String.eqb
              (map (fun kv => (fst kv, g (snd kv))) (filter (fun kv => q (fst kv)) d)) k'
            = None).
  { intros q Hn. apply (dict_get_not_In String.eqb string_eqb_spec).
    rewrite map_map. cbn [fst]. intros H. apply Hn.
    apply in_map_iff in H. destruct H as [[a b] [<- Hab]].
    apply filter_In in Hab. apply in_map_iff. exists (a, b). tauto. }
  destruct Hin as [e|Hin].
  - injection e as -> ->. destruct (p k) eqn:Hp.
    + cbn. rewrite String.eqb_refl. reflexivity.
    + apply Hnot, Hk.
  - assert (Hne : String.eqb k' k = false).
    { apply String.eqb_neq. intros ->. apply Hk.
      apply in_map_iff. exists (k, v). auto. }
    destruct (p k'); [cbn; rewrite Hne|]; apply IH; assumption.
Qed.

Section Writers_more.
Variable py_str : Value -> string.

Lemma writerow_length fieldnames rowdict row :
  writerow py_str fieldnames rowdict = Ok row ->
  List.length row = List.length fieldnames.
Proof.
  unfold writerow. destruct (filter _ _); [|discriminate].
  intros H. injection H as <-. apply length_map.
Qed.

(** What [write_models_to_csv] writes is a table: the header is the list of
    fields of the class of the first Record, and every row written under
    it has as many cells as the header, whatever the columns asked for and
    whether or not the writing went through. *)
Theorem write_models_rectangular models columns header rows :
  yielded (write_models_to_csv py_str models columns) = header :: rows ->
  (exists c d rest, models = VModel c d :: rest
                    /\ header = dict_keys (cls_fields c))
  /\ Forall (fun row => List.length row = List.length header) rows.
Proof.
  unfold write_models_to_csv. destruct models as [|first rest]; [discriminate|].
  destruct first as [| | | | | | |c d]; try discriminate.
  cbn [fields_of]. rewrite writeheader_ok.
  match goal with |- context [gen_for ?b ?xs ?t] => set (g := gen_for b xs t) end.
  cbn [gen_app yielded app].
  intros H. injection H as <- <-. split; [eauto|].
  apply Forall_forall. intros row Hrow. subst g.
  apply gen_for_yielded in Hrow. destruct Hrow as [m [_ Hm]].
  destruct (model_dict m _) as [rowdict|e]; [|discriminate]. cbn [bind] in Hm.
  apply (writerow_length _ _ Hm).
Qed.

(** The row of a Record under a set of columns. *)
Lemma writerow_model_columns cls d cols :
  NoDup (dict_keys d) ->
  (rowdict <- model_dict (VModel cls d) (IncludeSet cols) ;;
   writerow py_str (dict_keys d) rowdict)
  = Ok (map (fun kv => if str_in (fst kv) cols
                       then cell_text py_str (to_builtin (snd kv))
                       else "") d).
Proof.
  intros Hnd. cbn [model_dict bind]. unfold writerow.
  set (rowdict := map (fun kv => (fst kv, to_builtin (snd kv)))
                      (filter (fun kv => str_in (fst kv) cols) d)).
  assert (Hwrong : filter (fun k => negb (str_in k (dict_keys d))) (dict_keys rowdict) = []).
  { apply filter_nil_existsb.
    destruct (existsb _ _) eqn:E; [|reflexivity].
    apply existsb_exists in E. destruct E as [k [Hk Hn]].
    unfold dict_keys, rowdict in Hk. rewrite map_map in Hk. cbn [fst] in Hk.
    apply in_map_iff in Hk. destruct Hk as [[a b] [<- Hab]].
    apply filter_In in Hab. destruct Hab as [Hab _].
    assert (Hin : str_in a (dict_keys d) = true).
    { apply str_in_In. unfold dict_keys. apply in_map_iff. exists (a, b). auto. }
    cbn [fst] in Hn. rewrite Hin in Hn. discriminate. }
  rewrite Hwrong. f_equal. unfold dict_keys. rewrite map_map.
  apply map_ext_in. intros [k v] Hkv. cbn [fst snd].
  unfold rowdict.
  rewrite (sget_filter_map (fun k0 => str_in k0 cols) to_builtin d k v Hnd Hkv).
  destruct (str_in k cols); reflexivity.
Qed.

(** Columns are blanked, not removed.  For Records of one class and a
    non-empty list of columns, [write_models_to_csv] writes the header of
    all the fields of the class and, for every Record, the text of each
    field that is among the columns and an empty cell for each field that
    is not; a column that is no field of the class changes nothing and
    raises nothing. *)
Theorem write_models_columns cls ds cols :
  ds <> [] -> cols <> [] ->
  NoDup (dict_keys (cls_fields cls)) ->
  (forall d, In d ds -> dict_keys d = dict_keys (cls_fields cls)) ->
  write_models_to_csv py_str (map (VModel cls) ds) (Some cols)
  = mkGen (dict_keys (cls_fields cls)
             :: map (fun d =>
                       map (fun kv => if str_in (fst kv) cols
                                      then cell_text py_str (to_builtin (snd kv))
                                      else "") d) ds)
          None.
Proof.
  intros Hds Hcols Hnd Hkeys. unfold write_models_to_csv.
  destruct ds as [|d0 ds']; [congruence|]. destruct cols as [|c0 cols']; [congruence|].
  cbn [map fields_of]. rewrite writeheader_ok.
  change (VModel cls d0 :: map (VModel cls) ds') with (map (VModel cls) (d0 :: ds')).
  set (cols := c0 :: cols'). set (ds := d0 :: ds') in *.
  rewrite (gen_for_all_ok _
             (fun m => match m with
                       | VModel _ d =>
                           map (fun kv => if str_in (fst kv) cols
                                          then cell_text py_str (to_builtin (snd kv))
                                          else "") d
                       | _ => []
                       end)).
  - unfold gen_app. cbn. rewrite map_map. reflexivity.
  - intros m Hm. apply in_map_iff in Hm. destruct Hm as [d [<- Hd]].
    rewrite <- (Hkeys d Hd). apply writerow_model_columns.
    rewrite (Hkeys d Hd). exact Hnd.
Qed.
End Writers_more.

Lemma write_models_rectangular_witness :
  (exists c d rest, [Ex.item1; Ex.item2] = VModel c d :: rest
                    /\ ["id"; "name"; "size"] = dict_keys (cls_fields c))
  /\ Forall (fun row => List.length row = List.length ["id"; "name"; "size"])
            [["1"; "a"; ""]; ["2"; "b"; ""]].
Proof.
  exact (@write_models_rectangular Ex.py_str [Ex.item1; Ex.item2]
           (Some ["id"; "name"]) ["id"; "name"; "size"]
           [["1"; "a"; ""]; ["2"; "b"; ""]] eq_refl).
Defined.

Lemma write_models_columns_witness :
  write_models_to_csv Ex.py_str
    (map (VModel Ex.Item)
         [[("id", VInt 1); ("name", VStr "a"); ("size", VInt 10)];
          [("id", VInt 2); ("name", VStr "b"); ("size", VNone)]])
    (Some ["name"; "colour"])
  = mkGen [["id"; "name"; "size"]; [""; "a"; ""]; [""; "b"; ""]] None.
Proof.
  refine (@write_models_columns Ex.py_str Ex.Item
            [[("id", VInt 1); ("name", VStr "a"); ("size", VInt 10)];
             [("id", VInt 2); ("name", VStr "b"); ("size", VNone)]]
            ["name"; "colour"] _ _ _ _).
  - discriminate.
  - discriminate.
  - cbn. repeat constructor; cbn; intuition discriminate.
  - intros d [<-|[<-|[]]]; reflexivity.
Defined.


Section Write_then_read.
Variable py_str : Value -> string.

End Write_then_read.


(** * list_as_panel *)

Section Panel_properties.
Context {R : Type}.
Variable truthy : R -> bool.

Lemma with_separators_cons (x y : R) rest sep :
  with_separators (x :: y :: rest) sep = x :: sep :: with_separators (y :: rest) sep.
Proof. reflexivity. Qed.

Lemma with_separators_spec sep (items : list R) :
  with_separators items sep = spec_between sep items.
Proof.
  induction items as [|x items IH]; [reflexivity|].
  destruct items as [|y rest]; [reflexivity|].
  rewrite with_separators_cons, IH. reflexivity.
Qed.

(** With a separator that counts as true, the panel holds the items with
    the separator between each two of them, none in front and none behind:
    2n - 1 renderables for n items, and none for none.  Without one, or
    with one that counts as false, it holds the items as they are.  Title
    and expansion are passed on. *)
Theorem list_as_panel_separators (items : list R) sep title expand :
  panel_title (list_as_panel truthy items sep title expand) = title
  /\ panel_expand (list_as_panel truthy items sep title expand) = expand
  /\ (forall s, sep = Some s -> truthy s = true ->
        panel_items (list_as_panel truthy items sep title expand)
        = spec_between s items
        /\ List.length (panel_items (list_as_panel truthy items sep title expand))
           = 2 * List.length items - 1)
  /\ ((sep = None \/ exists s, sep = Some s /\ truthy s = false) ->
      panel_items (list_as_panel truthy items sep title expand) = items).
Proof.
  split; [reflexivity|]. split; [reflexivity|]. split.
  - intros s -> Hs. unfold list_as_panel. rewrite Hs. cbn [panel_items].
    rewrite with_separators_spec. split; [reflexivity|].
    induction items as [|x items IH]; [reflexivity|].
    destruct items as [|y rest]; [reflexivity|].
    cbn [spec_between List.length] in *. lia.
  - intros [->|[s [-> Hs]]]; unfold list_as_panel; [|rewrite Hs]; reflexivity.
Qed.
End Panel_properties.

Lemma list_as_panel_separators_witness :
  panel_items (list_as_panel (fun s => negb (String.eqb s ""))
                             ["one"; "two"; "three"; "four"] (Some "---")
                             (Some "example") true)
  = ["one"; "---"; "two"; "---"; "three"; "---"; "four"].
Proof.
  exact (proj1 (proj1 (proj2 (proj2
           (list_as_panel_separators (fun s => negb (String.eqb s ""))
              ["one"; "two"; "three"; "four"] (Some "---") (Some "example") true)))
           "---" eq_refl eq_refl)).
Defined.

(** * enums.Enum *)

Lemma value2member_In members value member :
  value2member members value = Some member -> In (member, value) members.
Proof.
  induction members as [|[n v] members IH]; cbn; [discriminate|].
  destruct (String.eqb v value) eqn:E.
  - apply String.eqb_eq in E. subst. intros H. injection H as ->. auto.
  - auto.
Qed.

Lemma value2member_None members value :
  value2member members value = None <-> ~ In value (map snd members).
Proof.
  induction members as [|[n v] members IH]; cbn; [tauto|].
  destruct (String.eqb v value) eqn:E.
  - apply String.eqb_eq in E. subst. split; [discriminate|]. tauto.
  - apply String.eqb_neq in E. rewrite IH. tauto.
Qed.

Section Enum_properties.
Variable py_repr : string -> string.

(** Looking a value up in an [Enum] subclass.  The value of a member gives
    a member of that value; anything else raises [ValueError] and gives no
    member.  The error lists the values to choose from, unless the value
    is the name of a member, in which case [_missing_] returns [None] and
    the error is the plain one of [enum]. *)
Theorem enum_call_outcomes cls value :
  (forall member, enum_call py_repr cls value = Ok member ->
                  In (member, value) (enum_members cls))
  /\ (In value (map snd (enum_members cls)) ->
      exists member, enum_call py_repr cls value = Ok member)
  /\ (~ In value (map snd (enum_members cls)) ->
      enum_call py_repr cls value
      = Raise (ValueError
                 (if str_in value (map fst (enum_members cls))
                  then py_repr value ++ " is not a valid " ++ enum_name cls
                  else "'" ++ value ++ "' is not a valid " ++ enum_module cls
                           ++ "." ++ enum_name cls ++ ". Expected one of "
                           ++ str_of_list py_repr
                                          (member_values (enum_members cls) []))
                 [])).
Proof.
  unfold enum_call, _missing_, dict_keys.
  destruct (value2member (enum_members cls) value) as [m|] eqn:E.
  - split; [|split].
    + intros member H. injection H as <-. apply value2member_In, E.
    + eauto.
    + intros H. apply value2member_None in H. congruence.
  - split; [|split].
    + intros member. destruct (str_in value _); discriminate.
    + intros H. apply value2member_None in E. contradiction.
    + intros _. destruct (str_in value _); reflexivity.
Qed.
End Enum_properties.

Lemma enum_call_outcomes_witness :
  enum_call simple_repr SrtDir "ASC"
  = Raise (ValueError "'ASC' is not a valid SrtDir" []).
Proof.
  refine (proj2 (proj2 (enum_call_outcomes simple_repr SrtDir "ASC")) _).
  cbn. intuition discriminate.
Defined.

Example enum_call_unknown :
  enum_call simple_repr SrtDir "up"
  = Raise (ValueError
             "'up' is not a valid incydr.enums.SrtDir. Expected one of ['asc', 'desc']"
             []).
Proof. reflexivity. Qed.

Example enum_call_group_clause :
  enum_call simple_repr GroupClause "OR" = Ok "or_".
Proof. reflexivity. Qed.

(** * More on the edges *)

Lemma iter_model_formatted_names_witness :
  raised (get_fields Ex.Alert None true) = None.
Proof.
  destruct (iter_model_formatted_names Ex.type_attr Ex.call Ex.Alert Ex.alert None true
                                       (Some "table")) as [rest [_ H]].
  exact (proj2 (H eq_refl)).
Defined.

Section Write_dict_more.
Variable py_str : Value -> string.


End Write_dict_more.


Section Resolver_collections.
Variable type_attr : Value -> string -> option Value.

(** The resolver looks at the type of an absent field, not at its shape.
    Below a field whose type is a model and whose value is [None], it
    resolves the fields of that model to [None] with their metadata, also
    when the field is a list of models, which [flatten_fields] does not
    descend into.  Below such a field that holds a list it raises
    [AttributeError]: for the name asked, when a list has no attribute of
    that name, and for [__fields__] when it has one (a child field named
    [count] or [index], say). *)
Theorem resolver_below_absent_collection c d n f child leaf leaf_field :
  sget (cls_fields c) n = Some f ->
  type_ f = TModel child ->
  sget (cls_fields child) leaf = Some leaf_field ->
  (sget d n = Some VNone ->
   get_field_value_and_info type_attr (VModel c d) [n; leaf]
   = Ok (VNone, Some leaf_field))
  /\ (forall items, sget d n = Some (VList items) ->
        get_field_value_and_info type_attr (VModel c d) [n; leaf]
        = Raise (AttributeError
                   (match type_attr (VList items) leaf with
                    | None => leaf
                    | Some _ => "__fields__"
                    end))).
Proof.
  intros Hf Ht Hleaf. split.
  - intros Hn. unfold get_field_value_and_info.
    cbn [removelast descend_all last]. unfold descend, getattr at 1.
    rewrite Hn. cbn [bind fields_of]. rewrite Hf, Ht. cbn [bind].
    unfold getattr, construct_none. rewrite sget_construct_none, Hleaf.
    cbn [bind fields_of]. rewrite Hleaf. reflexivity.
  - intros items Hn. unfold get_field_value_and_info.
    cbn [removelast descend_all last]. unfold descend, getattr at 1.
    rewrite Hn. cbn [bind]. unfold getattr, getattr_type.
    destruct (type_attr (VList items) leaf); reflexivity.
Qed.
End Resolver_collections.

Lemma resolver_below_absent_collection_witness :
  get_field_value_and_info Ex.type_attr Ex.lonely ["kids"; "field_2"]
  = Ok (VNone, Some (Ex.scalar "int")).
Proof.
  exact (proj1 (@resolver_below_absent_collection Ex.type_attr Ex.Family
                  [("field", VStr "a"); ("child", VNone);
                   ("kids", VNone); ("last", VNone)]
                  "kids" (mkField (TModel Ex.Child) SHAPE_LIST true [])
                  Ex.Child "field_2" (Ex.scalar "int") eq_refl eq_refl eq_refl)
               eq_refl).
Defined.

(** A list of children under the field: the name of a child field is no
    attribute of a list. *)
Example resolver_below_a_list :
  get_field_value_and_info Ex.type_attr
    (VModel Ex.Family [("field", VStr "a"); ("child", VNone);
                       ("kids", VList []); ("last", VNone)])
    ["kids"; "field_2"]
  = Raise (AttributeError "field_2").
Proof. reflexivity. Qed.
